(** * Kaizen Sweep repo selection ([.github/kaizen-sweep/select-repos.py])

    A shallow embedding of the selection script and the properties of its
    rotation arithmetic, its active-window predicate, its override merge and
    its command-line validation.

    Python integers are unbounded, hence [Z]; [//] and [%] are floor division
    and the modulus with the sign of the divisor, which is what [Z.div] and
    [Z.modulo] compute.  A Python [dict] with string keys is a
    [gmap string _]; a Python [list] is a [list].  Exceptions are results of
    type [res]. *)

From Stdlib Require Import ZArith Lia.
From stdpp Require Import base option list list_numbers gmap strings fin_maps pretty.

Local Open Scope Z_scope.

(** ** Exceptions *)

Inductive exn :=
  | IndexError
  | ValueError
  | KeyError
  | TypeError
  | ZeroDivisionError
  | YAMLError.

Inductive res (A : Type) :=
  | Ok (a : A)
  | Raise (e : exn).
Arguments Ok {A} a.
Arguments Raise {A} e.

#[global] Instance res_ret : MRet res := @Ok.
#[global] Instance res_bind : MBind res := λ A B f m,
  match m with
  | Ok a => f a
  | Raise e => Raise e
  end.

(** ** Data model *)

(** The scalar values a parsed configuration holds in a repo record.  All of
    them are hashable, so a membership test on a dict never raises. *)
Inductive value :=
  | VNull
  | VBool (b : bool)
  | VInt (z : Z)
  | VStr (s : string).

(** A repo record, and an override mapping: dicts with string keys. *)
Abbreviation record := (gmap string value).

(** What the key [repos_per_hour] holds when it is present: an integer, or
    Python's [None] for a null. *)
Inductive int_or_none :=
  | PyInt (n : Z)
  | PyNone.

(** The [settings] dict.  [active_hours] and [active_days] are what
    [settings.get(key)] returns: [None] when the key is absent and when it is
    null, which the script does not tell apart.  For [repos_per_hour], read
    with a default, [None] is the absent key and [Some PyNone] the null. *)
Record settings := {
  active_hours : option (list Z);
  active_days : option (list Z);
  repos_per_hour : option int_or_none;
}.

(** The top-level configuration dict with its three optional keys; [None] is
    an absent key. *)
Record config := {
  cfg_settings : option settings;
  cfg_active_repos : option (list record);
  cfg_overrides : option (gmap string record);
}.

(** [{}] as a settings dict: no key is present. *)
Definition empty_settings : settings :=
  {| active_hours := None; active_days := None; repos_per_hour := None |}.

(** ** Python primitives used by the script *)

(** [x in l] on a list. *)
Definition py_in (x : Z) (l : list Z) : bool := bool_decide (x ∈ l).

(** [l.index(x)]: the first position of [x], [ValueError] when absent. *)
Fixpoint py_index (x : Z) (l : list Z) : res Z :=
  match l with
  | [] => Raise ValueError
  | y :: l' => if decide (y = x) then Ok 0 else p ← py_index x l'; Ok (1 + p)
  end.

(** [l[i]]: negative indices count from the end, [IndexError] out of range. *)
Definition py_getitem {A} (l : list A) (i : Z) : res A :=
  let n := Z.of_nat (length l) in
  let j := if i <? 0 then i + n else i in
  if (j <? 0) || (n <=? j) then Raise IndexError
  else match l !! Z.to_nat j with
       | Some a => Ok a
       | None => Raise IndexError
       end.

(** [a % b]. *)
Definition py_mod (a b : Z) : res Z :=
  if b =? 0 then Raise ZeroDivisionError else Ok (a `mod` b).

(** [range(n)]: empty when [n <= 0]. *)
Definition py_range (n : Z) : list Z := seqZ 0 n.

(** [range(n)] for an [n] that may be [None]. *)
Definition py_range_of (n : int_or_none) : res (list Z) :=
  match n with
  | PyInt n => Ok (py_range n)
  | PyNone => Raise TypeError
  end.

(** [a * b] for a [b] that may be [None]. *)
Definition py_mul (a : Z) (b : int_or_none) : res Z :=
  match b with
  | PyInt n => Ok (a * n)
  | PyNone => Raise TypeError
  end.

(** [o or d] where [o] is the result of [dict.get]: [None] and the empty list
    are both falsy. *)
Definition or_list (o : option (list Z)) (d : list Z) : list Z :=
  match o with
  | Some (x :: l) => x :: l
  | Some [] | None => d
  end.

(** [for x in l: s = body(s, x)], stopping at the first exception. *)
Fixpoint for_each {S A} (body : S → A → res S) (l : list A) (s : S) : res S :=
  match l with
  | [] => Ok s
  | x :: l' => s' ← body s x; for_each body l' s'
  end.

(** ** [is_active_time] *)

Definition is_active_time (hour_of_week : Z) (s : settings) : bool :=
  let day_index := hour_of_week `div` 24 in
  let hour_of_day := hour_of_week `mod` 24 in
  if match active_days s with
     | Some days => negb (py_in day_index days)
     | None => false
     end
  then false
  else if match active_hours s with
          | Some hours => negb (py_in hour_of_day hours)
          | None => false
          end
  then false
  else true.

(** ** [select_repos] *)

(** The lists the dense index is computed over (lines 79-80). *)
Definition active_hours_list (s : settings) : list Z :=
  or_list (active_hours s) (py_range 24).
Definition active_days_list (s : settings) : list Z :=
  or_list (active_days s) (py_range 7).

(** [l.index(x) if x in l else 0] (lines 86-87). *)
Definition position_or_zero (x : Z) (l : list Z) : res Z :=
  if py_in x l then py_index x l else Ok 0.

Definition day_position (s : settings) (hour_of_week : Z) : res Z :=
  position_or_zero (hour_of_week `div` 24) (active_days_list s).
Definition hour_position (s : settings) (hour_of_week : Z) : res Z :=
  position_or_zero (hour_of_week `mod` 24) (active_hours_list s).

(** Line 88. *)
Definition active_hour_index (s : settings) (hour_of_week : Z) : res Z :=
  dp ← day_position s hour_of_week;
  hp ← hour_position s hour_of_week;
  Ok (dp * Z.of_nat (length (active_hours_list s)) + hp).

(** [settings.get("repos_per_hour", 1)] (line 74): the default is for the
    absent key only. *)
Definition get_repos_per_hour (s : settings) : int_or_none :=
  default (PyInt 1) (repos_per_hour s).

(** Line 92. *)
Definition start_index (s : settings) (total_repos hour_of_week : Z) : res Z :=
  ahi ← active_hour_index s hour_of_week;
  product ← py_mul ahi (get_repos_per_hour s);
  py_mod product total_repos.

(** Line 95. *)
Definition repo_index (start total_repos i : Z) : res Z :=
  py_mod (start + i) total_repos.

(** Lines 99-101 on the copy [repo]: [repo.update(overrides[repo_name])] when
    the name is a key of [overrides].  The entries of the override win. *)
Definition apply_overrides (overrides : gmap string record) (repo : record) : record :=
  match repo !! "name" with
  | Some (VStr repo_name) =>
      match overrides !! repo_name with
      | Some o => o ∪ repo
      | None => repo
      end
  | _ => repo
  end.

(** Lines 62-64: the three keys of the configuration with their defaults. *)
Definition get_settings (c : config) : settings :=
  default empty_settings (cfg_settings c).
Definition get_active_repos (c : config) : list record :=
  default [] (cfg_active_repos c).
Definition get_overrides (c : config) : gmap string record :=
  default ∅ (cfg_overrides c).

(** One iteration of the loop of lines 94-103. *)
Definition select_step (active_repos : list record) (overrides : gmap string record)
    (start total_repos : Z) (selected : list record) (i : Z) : res (list record) :=
  idx ← repo_index start total_repos i;
  repo ← py_getitem active_repos idx;
  Ok (selected ++ [apply_overrides overrides repo]).

Definition select_repos (c : config) (hour_of_week : Z) : res (list record) :=
  let s := get_settings c in
  let active_repos := get_active_repos c in
  let overrides := get_overrides c in
  match active_repos with
  | [] => Ok []
  | _ :: _ =>
      if negb (is_active_time hour_of_week s) then Ok []
      else
        let total_repos := Z.of_nat (length active_repos) in
        start ← start_index s total_repos hour_of_week;
        range ← py_range_of (get_repos_per_hour s);
        for_each (select_step active_repos overrides start total_repos) range []
  end.

(** ** The command line ([main]) *)

(** The parsed arguments: [--hour] (an [int] for argparse), [--config],
    [--json], [--debug]. *)
Record args := {
  arg_hour : option Z;
  arg_config : option string;
  arg_json : bool;
  arg_debug : bool;
}.

(** What the script reads of a [datetime]: [dt.weekday()] and [dt.hour]. *)
Record datetime := {
  dt_weekday : Z;
  dt_hour : Z;
}.

(** What [main] reaches outside the program: the UTC clock, the path of
    [config.yml] next to the script, [Path(...)] and [Path.exists], reading
    and parsing a configuration file, and [json.dumps]. *)
Record env := {
  utc_now : datetime;
  default_config_path : string;
  make_path : string → string;
  path_exists : string → bool;
  load_config : string → res config;
  json_dumps : list record → string;
}.

Definition get_hour_of_week (e : env) (dt : option datetime) : Z :=
  let dt := default (utc_now e) dt in
  let day_index := dt_weekday dt in
  let hour_of_day := dt_hour dt in
  (day_index * 24) + hour_of_day.

(** How a run of [main] ends: it returns, it calls [sys.exit], or an
    exception is not caught (the interpreter then exits with status 1). *)
Inductive termination :=
  | Returned
  | SysExit (code : Z)
  | Uncaught (e : exn).

Definition exit_status (t : termination) : Z :=
  match t with
  | Returned => 0
  | SysExit code => code
  | Uncaught _ => 1
  end.

(** The lines printed on each stream, and how the run ended.  The traceback
    of an uncaught exception is not part of [stderr] here. *)
Record outcome := {
  stdout : list string;
  stderr : list string;
  term : termination;
}.

Definition day_names : list string :=
  ["Mon"; "Tue"; "Wed"; "Thu"; "Fri"; "Sat"; "Sun"].

(** The format [{n:02d}]: at least two characters, padded with a zero. *)
Definition fmt_02d (n : Z) : string :=
  let digits := pretty n in
  if (String.length digits <? 2)%nat then "0" +:+ digits else digits.

(** [repo["name"]]. *)
Definition get_name (repo : record) : res value :=
  match repo !! "name" with
  | Some v => Ok v
  | None => Raise KeyError
  end.

(** An element handed to [str.join]. *)
Definition join_item (v : value) : res string :=
  match v with
  | VStr s => Ok s
  | _ => Raise TypeError
  end.

(** Lines 154-155. *)
Definition names_line (selected : list record) : res string :=
  names ← mapM get_name selected;
  items ← mapM join_item names;
  Ok (String.concat " " items).

(** Lines 117-120: an empty [--config] is falsy, like a missing one. *)
Definition config_path_of (e : env) (a : args) : string :=
  match arg_config a with
  | Some p => if bool_decide (p = "") then default_config_path e else make_path e p
  | None => default_config_path e
  end.

(** The two messages of [main] on the error stream. *)
Definition config_not_found_message (config_path : string) : string :=
  "Error: Config file not found: " +:+ config_path.
Definition hour_range_message (hour_of_week : Z) : string :=
  "Error: Hour of week must be between 0 and 167, got " +:+ pretty hour_of_week.

(** [main], over the selection function it calls. *)
Definition main_with (select : config → Z → res (list record))
    (e : env) (a : args) : outcome :=
  let config_path := config_path_of e a in
  if negb (path_exists e config_path) then
    {| stdout := [];
       stderr := [config_not_found_message config_path];
       term := SysExit 1 |}
  else
    match load_config e config_path with
    | Raise ex => {| stdout := []; stderr := []; term := Uncaught ex |}
    | Ok c =>
        let hour_of_week :=
          match arg_hour a with
          | Some h => h
          | None => get_hour_of_week e None
          end in
        if (hour_of_week <? 0) || (167 <? hour_of_week) then
          {| stdout := [];
             stderr := [hour_range_message hour_of_week];
             term := SysExit 1 |}
        else
          match
            (if arg_debug a then
               let day_index := hour_of_week `div` 24 in
               let hour_of_day := hour_of_week `mod` 24 in
               day ← py_getitem day_names day_index;
               Ok ["Hour of week: " +:+ pretty hour_of_week +:+ " (" +:+ day
                   +:+ " " +:+ fmt_02d hour_of_day +:+ ":00 UTC)"]
             else Ok [])
          with
          | Raise ex => {| stdout := []; stderr := []; term := Uncaught ex |}
          | Ok err1 =>
              match select c hour_of_week with
              | Raise ex => {| stdout := []; stderr := err1; term := Uncaught ex |}
              | Ok selected =>
                  let err2 :=
                    if arg_debug a then
                      err1 ++ ["Selected " +:+ pretty (Z.of_nat (length selected))
                               +:+ " repos"]
                    else err1 in
                  if arg_json a then
                    {| stdout := [json_dumps e selected]; stderr := err2;
                       term := Returned |}
                  else
                    match names_line selected with
                    | Raise ex => {| stdout := []; stderr := err2; term := Uncaught ex |}
                    | Ok line => {| stdout := [line]; stderr := err2; term := Returned |}
                    end
              end
          end
    end.

Definition main : env → args → outcome := main_with select_repos.

(** ** [select_repos] over a store of dict objects

    The parsed configuration is a graph of mutable dicts: the elements of
    [active_repos] and the values of [overrides] are references, and two of
    them may be the same object.  Here [.copy()] allocates a new dict and
    [.update()] writes to the dict it is called on. *)

Abbreviation loc := positive.
Abbreviation store := (gmap loc record).

Record config_refs := {
  ref_settings : option settings;
  ref_active_repos : option (list loc);
  ref_overrides : option (gmap string loc);
}.

(** [d.copy()]: a new object with the entries of [d]. *)
Definition dict_copy (d : loc) (σ : store) : loc * store :=
  let l := fresh (dom σ) in (l, <[l := σ !!! d]> σ).

(** [d.update(src)]: [d] is modified in place. *)
Definition dict_update (d src : loc) (σ : store) : store :=
  <[d := (σ !!! src) ∪ (σ !!! d)]> σ.

(** One iteration of the loop of lines 94-103, on the store. *)
Definition select_step_st (active_repos : list loc) (overrides : gmap string loc)
    (start total_repos : Z) (st : list loc * store) (i : Z) : res (list loc * store) :=
  idx ← repo_index start total_repos i;
  src ← py_getitem active_repos idx;
  let '(repo, σ1) := dict_copy src st.2 in
  let σ2 :=
    match (σ1 !!! repo) !! "name" with
    | Some (VStr repo_name) =>
        match overrides !! repo_name with
        | Some o => dict_update repo o σ1
        | None => σ1
        end
    | _ => σ1
    end in
  Ok (st.1 ++ [repo], σ2).

Definition select_repos_st (c : config_refs) (hour_of_week : Z) (σ : store)
    : res (list loc * store) :=
  let s := default empty_settings (ref_settings c) in
  let active_repos := default [] (ref_active_repos c) in
  let overrides := default ∅ (ref_overrides c) in
  match active_repos with
  | [] => Ok ([], σ)
  | _ :: _ =>
      if negb (is_active_time hour_of_week s) then Ok ([], σ)
      else
        let total_repos := Z.of_nat (length active_repos) in
        start ← start_index s total_repos hour_of_week;
        range ← py_range_of (get_repos_per_hour s);
        for_each (select_step_st active_repos overrides start total_repos)
                 range ([], σ)
  end.

(** The dicts a list of references denotes in a store. *)
Definition contents (σ : store) (refs : list loc) : list record :=
  (λ l, σ !!! l) <$> refs.

(** The override mapping a dict of references denotes in a store. *)
Definition contents_map (σ : store) (refs : gmap string loc) : gmap string record :=
  (λ l, σ !!! l) <$> refs.

(** The configuration a graph of references denotes in a store. *)
Definition read_config (σ : store) (c : config_refs) : config :=
  {| cfg_settings := ref_settings c;
     cfg_active_repos := contents σ <$> ref_active_repos c;
     cfg_overrides := contents_map σ <$> ref_overrides c |}.

(** Every reference of the configuration is an object of the store. *)
Definition config_in_store (σ : store) (c : config_refs) : Prop :=
  (∀ l, l ∈ default [] (ref_active_repos c) → l ∈ dom σ) ∧
  (∀ k l, default ∅ (ref_overrides c) !! k = Some l → l ∈ dom σ).

(** What a caller sees of a run on the store: the records the returned
    references hold, or the exception. *)
Definition observe (r : res (list loc * store)) : res (list record) :=
  match r with
  | Ok (out, σ') => Ok (contents σ' out)
  | Raise e => Raise e
  end.

(** The store a run leaves behind.  The exception [select_repos] can raise
    comes at line 92, before the loop writes anything. *)
Definition store_after (r : res (list loc * store)) (σ : store) : store :=
  match r with
  | Ok (_, σ') => σ'
  | Raise _ => σ
  end.

(** ** Which repo an hour selects, and how often *)

(** The position in [active_repos] that iteration [i] of the loop reads at
    [hour_of_week] (lines 92 and 95). *)
Definition selected_index (c : config) (hour_of_week i : Z) : res Z :=
  let total_repos := Z.of_nat (length (get_active_repos c)) in
  start ← start_index (get_settings c) total_repos hour_of_week;
  repo_index start total_repos i.

(** Whether the first repo selected at [hour_of_week] is the one at [k]. *)
Definition selects (c : config) (k hour_of_week : Z) : bool :=
  match selected_index c hour_of_week 0 with
  | Ok idx => bool_decide (idx = k)
  | Raise _ => false
  end.

(** The number of hours of the week at which the repo at [k] is selected. *)
Definition times_selected (c : config) (k : Z) : Z :=
  Z.of_nat (length (filter (λ h, selects c k h = true) (seqZ 0 168))).

(** ** Sample configurations *)

Definition repo_named (n : string) : record := {[ "name" := VStr n ]}.

Definition open_settings (per_hour : Z) : settings :=
  {| active_hours := None; active_days := None;
     repos_per_hour := Some (PyInt per_hour) |}.

Definition sample_config (per_hour : Z) (names : list string) : config :=
  {| cfg_settings := Some (open_settings per_hour);
     cfg_active_repos := Some (repo_named <$> names);
     cfg_overrides := None |}.

Definition alpha_repo : record :=
  {[ "name" := VStr "alpha"; "branch" := VStr "main"; "team" := VStr "core" ]}.

Definition alpha_config : config :=
  {| cfg_settings := None;
     cfg_active_repos := Some [alpha_repo; repo_named "beta"];
     cfg_overrides := Some {[ "alpha" := {[ "branch" := VStr "dev" ]} ]} |}.

Definition sample_env (config_exists : bool) (loaded : res config) : env :=
  {| utc_now := {| dt_weekday := 0; dt_hour := 0 |};
     default_config_path := "config.yml";
     make_path := λ p, p;
     path_exists := λ _, config_exists;
     load_config := λ _, loaded;
     json_dumps := λ _, "[]" |}.

Definition sample_args (hour : option Z) : args :=
  {| arg_hour := hour; arg_config := None; arg_json := false; arg_debug := false |}.

(** A store in which the override of "alpha" and the two repos are objects. *)
Definition sample_store : store :=
  {[ 1%positive := alpha_repo;
     2%positive := repo_named "beta";
     3%positive := {[ "branch" := VStr "dev" ]} ]}.

Definition sample_config_refs : config_refs :=
  {| ref_settings := Some (open_settings 3);
     ref_active_repos := Some [1%positive; 2%positive];
     ref_overrides := Some {[ "alpha" := 3%positive ]} |}.

(** ** Variants of the inputs *)

(** The arguments with one of them replaced. *)
Definition with_hour (hour : option Z) (a : args) : args :=
  {| arg_hour := hour; arg_config := arg_config a;
     arg_json := arg_json a; arg_debug := arg_debug a |}.
Definition with_debug (debug : bool) (a : args) : args :=
  {| arg_hour := arg_hour a; arg_config := arg_config a;
     arg_json := arg_json a; arg_debug := debug |}.

(** The configuration without its [overrides] key. *)
Definition without_overrides (c : config) : config :=
  {| cfg_settings := cfg_settings c;
     cfg_active_repos := cfg_active_repos c;
     cfg_overrides := None |}.

(** Line 130: the hour [main] validates and selects for. *)
Definition resolved_hour (e : env) (a : args) : Z :=
  match arg_hour a with
  | Some h => h
  | None => get_hour_of_week e None
  end.

(** What [datetime] guarantees of [weekday()] and [hour]. *)
Definition valid_datetime (dt : datetime) : Prop :=
  0 ≤ dt_weekday dt ≤ 6 ∧ 0 ≤ dt_hour dt ≤ 23.

(** The name a record has, when it is a string. *)
Definition name_of (repo : record) : option string :=
  match repo !! "name" with
  | Some (VStr n) => Some n
  | _ => None
  end.

(** A working-hours window, and a clock on Wednesday 14:00. *)
Definition office_settings : settings :=
  {| active_hours := Some [9; 10; 11; 14]; active_days := Some [0; 2; 4];
     repos_per_hour := Some (PyInt 2) |}.

Definition wednesday_14 : datetime := {| dt_weekday := 2; dt_hour := 14 |}.

(** A configuration whose [repos_per_hour] is null. *)
Definition null_per_hour_config : config :=
  {| cfg_settings :=
       Some {| active_hours := None; active_days := None;
               repos_per_hour := Some PyNone |};
     cfg_active_repos := Some [alpha_repo; repo_named "beta"];
     cfg_overrides := None |}.

(** An environment whose [json.dumps] stand-in shows the names it is given. *)
Definition names_env (loaded : res config) : env :=
  {| utc_now := wednesday_14;
     default_config_path := "config.yml";
     make_path := λ p, p;
     path_exists := λ _, true;
     load_config := λ _, loaded;
     json_dumps := λ selected,
       "[" +:+ String.concat ", " (omap name_of selected) +:+ "]" |}.

(** ** The closed form of the selection loop *)

(** What the loop of [select_repos] appends: the repos at the positions
    [(start + i) mod total] for the [i] of the range, overrides applied. *)
Definition rotation (active_repos : list record) (overrides : gmap string record)
    (start : Z) (range : list Z) : list record :=
  (λ i, apply_overrides overrides
          (active_repos !!! Z.to_nat ((start + i) `mod` Z.of_nat (length active_repos))))
  <$> range.

(** * Properties *)

(** ** The Python primitives *)

Lemma bind_Ok {A B} (f : A → res B) (a : A) : (Ok a ≫= f) = f a.
Proof. reflexivity. Qed.

Lemma py_in_true x l : py_in x l = true ↔ x ∈ l.
Proof. unfold py_in. apply bool_decide_eq_true. Qed.

Lemma py_in_false x l : py_in x l = false ↔ x ∉ l.
Proof. unfold py_in. apply bool_decide_eq_false. Qed.

Lemma py_index_elem x l :
  x ∈ l →
  ∃ p, py_index x l = Ok p ∧ 0 ≤ p < Z.of_nat (length l) ∧ l !! Z.to_nat p = Some x.
Proof.
  induction l as [|y l IH]; intros Hin.
  - by apply elem_of_nil in Hin.
  - cbn [py_index]. destruct (decide (y = x)) as [->|Hne].
    + exists 0. cbn. split; [done|]. split; [lia|done].
    + apply elem_of_cons in Hin as [->|Hin]; [done|].
      destruct (IH Hin) as (p & -> & Hp & Hl).
      exists (1 + p). rewrite bind_Ok. split; [done|].
      split; [cbn [length]; lia|].
      replace (Z.to_nat (1 + p)) with (S (Z.to_nat p)) by lia. done.
Qed.

Lemma py_index_range n x : 0 ≤ x < n → py_index x (py_range n) = Ok x.
Proof.
  unfold py_range. intros Hx.
  assert (Hgen : ∀ k m, 0 ≤ k → m ≤ x < m + k → py_index x (seqZ m k) = Ok (x - m)).
  { intros k m Hk. revert m. pattern k. apply natlike_ind; [| |done].
    - intros m ?. lia.
    - clear k Hk. intros k Hk IH m Hm.
      rewrite seqZ_cons by lia. cbn [py_index].
      destruct (decide (m = x)) as [->|Hne]; [f_equal; lia|].
      replace (Z.pred (Z.succ k)) with k by lia.
      rewrite IH by lia. rewrite bind_Ok. f_equal. lia. }
  rewrite (Hgen n 0) by lia. f_equal. lia.
Qed.

Lemma position_or_zero_ok x l :
  ∃ p, position_or_zero x l = Ok p ∧ 0 ≤ p.
Proof.
  unfold position_or_zero. destruct (py_in x l) eqn:Hin.
  - apply py_in_true, py_index_elem in Hin as (p & -> & Hp & _).
    exists p. split; [done|lia].
  - exists 0. split; [done|lia].
Qed.

Lemma position_or_zero_elem x l :
  x ∈ l →
  ∃ p, position_or_zero x l = Ok p ∧ 0 ≤ p < Z.of_nat (length l)
       ∧ l !! Z.to_nat p = Some x.
Proof.
  intros Hin. unfold position_or_zero.
  rewrite (proj2 (py_in_true x l) Hin). by apply py_index_elem.
Qed.

Lemma py_getitem_nonneg {A} (l : list A) (i : Z) :
  0 ≤ i < Z.of_nat (length l) →
  ∃ a, py_getitem l i = Ok a ∧ l !! Z.to_nat i = Some a.
Proof.
  intros Hi. unfold py_getitem.
  destruct (Z.ltb_spec i 0); [lia|].
  destruct (Z.ltb_spec i 0); [lia|].
  destruct (Z.leb_spec (Z.of_nat (length l)) i); [lia|]. cbn.
  destruct (l !! Z.to_nat i) as [a|] eqn:Hl; [by exists a|].
  apply lookup_ge_None in Hl. lia.
Qed.

Lemma py_mod_pos a b : 0 < b → py_mod a b = Ok (a `mod` b).
Proof. intros Hb. unfold py_mod. destruct (Z.eqb_spec b 0); [lia|done]. Qed.

(** ** The selection loop *)

Lemma select_step_ok active_repos overrides start selected i :
  active_repos ≠ [] →
  select_step active_repos overrides start (Z.of_nat (length active_repos)) selected i
  = Ok (selected ++ rotation active_repos overrides start [i]).
Proof.
  intros Hne.
  assert (Hlen : 0 < Z.of_nat (length active_repos)).
  { destruct active_repos; [done|cbn [length]; lia]. }
  unfold select_step, repo_index.
  rewrite py_mod_pos by done. rewrite bind_Ok.
  destruct (py_getitem_nonneg active_repos
              ((start + i) `mod` Z.of_nat (length active_repos)))
    as (repo & -> & Hrepo).
  { by apply Z.mod_pos_bound. }
  rewrite bind_Ok. unfold rotation. cbn [fmap list_fmap].
  by rewrite list_lookup_total_alt, Hrepo.
Qed.

Lemma for_each_select_step active_repos overrides start range selected :
  active_repos ≠ [] →
  for_each (select_step active_repos overrides start
              (Z.of_nat (length active_repos))) range selected
  = Ok (selected ++ rotation active_repos overrides start range).
Proof.
  intros Hne. revert selected.
  induction range as [|i range IH]; intros selected.
  - cbn. by rewrite app_nil_r.
  - cbn [for_each]. rewrite select_step_ok by done.
    rewrite bind_Ok, IH, <- app_assoc. done.
Qed.

Lemma active_hour_index_ok s h :
  ∃ dp hp, day_position s h = Ok dp ∧ hour_position s h = Ok hp
           ∧ 0 ≤ dp ∧ 0 ≤ hp
           ∧ active_hour_index s h
             = Ok (dp * Z.of_nat (length (active_hours_list s)) + hp).
Proof.
  destruct (position_or_zero_ok (h `div` 24) (active_days_list s)) as (dp & Hdp & ?).
  destruct (position_or_zero_ok (h `mod` 24) (active_hours_list s)) as (hp & Hhp & ?).
  exists dp, hp. unfold active_hour_index, day_position, hour_position.
  rewrite Hdp, Hhp. done.
Qed.

Lemma start_index_ok s total h n :
  0 < total → get_repos_per_hour s = PyInt n →
  ∃ ahi, active_hour_index s h = Ok ahi
         ∧ start_index s total h = Ok ((ahi * n) `mod` total).
Proof.
  intros Htot Hn. destruct (active_hour_index_ok s h) as (dp & hp & _ & _ & _ & _ & Hahi).
  eexists. split; [exact Hahi|]. unfold start_index.
  rewrite Hahi, bind_Ok, Hn. cbn [py_mul]. rewrite bind_Ok. by apply py_mod_pos.
Qed.

Lemma start_index_null s total h :
  get_repos_per_hour s = PyNone → start_index s total h = Raise TypeError.
Proof.
  intros Hn. destruct (active_hour_index_ok s h) as (dp & hp & _ & _ & _ & _ & Hahi).
  unfold start_index. by rewrite Hahi, bind_Ok, Hn.
Qed.

(** [select_repos] as a closed form: the only exception it raises is the
    [TypeError] of line 92 for a null [repos_per_hour]. *)
Lemma select_repos_unfold c h :
  let s := get_settings c in
  let active_repos := get_active_repos c in
  let overrides := get_overrides c in
  ∃ ahi, active_hour_index s h = Ok ahi ∧
  select_repos c h =
    if bool_decide (active_repos = []) then Ok []
    else if is_active_time h s then
      match get_repos_per_hour s with
      | PyInt n =>
          Ok (rotation active_repos overrides
                ((ahi * n) `mod` Z.of_nat (length active_repos)) (py_range n))
      | PyNone => Raise TypeError
      end
    else Ok [].
Proof.
  intros s active_repos overrides.
  destruct (active_hour_index_ok s h) as (dp & hp & _ & _ & _ & _ & Hahi).
  eexists. split; [exact Hahi|].
  unfold select_repos. fold s active_repos overrides.
  destruct active_repos as [|r ar] eqn:Har; [done|].
  rewrite bool_decide_eq_false_2 by done.
  destruct (is_active_time h s); cbn [negb]; [|done].
  destruct (get_repos_per_hour s) as [n|] eqn:Hn.
  - destruct (start_index_ok s (Z.of_nat (length (r :: ar))) h n) as (ahi & Hahi' & ->);
      [cbn [length]; lia|done|].
    rewrite Hahi in Hahi'. injection Hahi' as <-.
    cbn [py_range_of]. rewrite !bind_Ok, for_each_select_step by done. done.
  - by rewrite start_index_null.
Qed.

(** ** The active window *)

Lemma is_active_time_true h s :
  is_active_time h s = true ↔
  (∀ days, active_days s = Some days → h `div` 24 ∈ days) ∧
  (∀ hours, active_hours s = Some hours → h `mod` 24 ∈ hours).
Proof.
  unfold is_active_time.
  destruct (active_days s) as [days|], (active_hours s) as [hours|]; cbn.
  - destruct (py_in (h `div` 24) days) eqn:Hd; cbn.
    + destruct (py_in (h `mod` 24) hours) eqn:Hh; cbn.
      * apply py_in_true in Hd, Hh. split; [|done].
        intros _. split; intros ? [= <-]; done.
      * apply py_in_false in Hh. split; [done|].
        intros [_ H]. destruct Hh. by apply H.
    + apply py_in_false in Hd. split; [done|].
      intros [H _]. destruct Hd. by apply H.
  - destruct (py_in (h `div` 24) days) eqn:Hd; cbn.
    + apply py_in_true in Hd. split; [|done].
      intros _. split; [intros ? [= <-]; done|done].
    + apply py_in_false in Hd. split; [done|].
      intros [H _]. destruct Hd. by apply H.
  - destruct (py_in (h `mod` 24) hours) eqn:Hh; cbn.
    + apply py_in_true in Hh. split; [|done].
      intros _. split; [done|intros ? [= <-]; done].
    + apply py_in_false in Hh. split; [done|].
      intros [_ H]. destruct Hh. by apply H.
  - split; [|done]. intros _. split; done.
Qed.

(** C4.  [is_active_time] is false when [active_days] is configured and the
    day index [hour_of_week // 24] is not a member, false when [active_hours]
    is configured and the hour of day [hour_of_week % 24] is not a member, and
    true otherwise; with both keys absent every hour-of-week is active. *)
Theorem is_active_time_spec (hour_of_week : Z) (s : settings) :
  (∀ days, active_days s = Some days → hour_of_week `div` 24 ∉ days →
     is_active_time hour_of_week s = false) ∧
  (∀ hours, active_hours s = Some hours → hour_of_week `mod` 24 ∉ hours →
     is_active_time hour_of_week s = false) ∧
  ((∀ days, active_days s = Some days → hour_of_week `div` 24 ∈ days) →
   (∀ hours, active_hours s = Some hours → hour_of_week `mod` 24 ∈ hours) →
     is_active_time hour_of_week s = true) ∧
  (active_days s = None → active_hours s = None →
     is_active_time hour_of_week s = true).
Proof.
  repeat split.
  - intros days Hd Hnin. apply not_true_is_false.
    intros [H _]%is_active_time_true. by apply Hnin, H.
  - intros hours Hh Hnin. apply not_true_is_false.
    intros [_ H]%is_active_time_true. by apply Hnin, H.
  - intros Hd Hh. by apply is_active_time_true.
  - intros Hd Hh. apply is_active_time_true.
    split; intros ? ?; congruence.
Qed.

(** Tuesday 09:00 is hour 33; with [active_days = [0,2,4]] it is inactive. *)
Lemma is_active_time_spec_witness :
  is_active_time 33
    {| active_hours := Some [9]; active_days := Some [0; 2; 4];
       repos_per_hour := None |} = false.
Proof.
  apply (proj1 (is_active_time_spec 33 _) [0; 2; 4]); [reflexivity|].
  compute_done.
Defined.

(** ** Results of [select_repos] *)

Lemma select_repos_no_repos c h :
  get_active_repos c = [] → select_repos c h = Ok [].
Proof. intros H. unfold select_repos. by rewrite H. Qed.

Lemma select_repos_inactive c h :
  is_active_time h (get_settings c) = false → select_repos c h = Ok [].
Proof.
  intros H. unfold select_repos.
  destruct (get_active_repos c); [done|]. by rewrite H.
Qed.

Lemma select_repos_active c h n :
  get_active_repos c ≠ [] → is_active_time h (get_settings c) = true →
  get_repos_per_hour (get_settings c) = PyInt n →
  ∃ ahi, active_hour_index (get_settings c) h = Ok ahi ∧
    select_repos c h =
      Ok (rotation (get_active_repos c) (get_overrides c)
            ((ahi * n) `mod` Z.of_nat (length (get_active_repos c)))
            (py_range n)).
Proof.
  intros Hne Hact Hn.
  destruct (select_repos_unfold c h) as (ahi & Hahi & Hsel).
  exists ahi. split; [done|]. rewrite Hsel.
  by rewrite bool_decide_eq_false_2, Hact, Hn.
Qed.

Lemma select_repos_null_per_hour c h :
  get_active_repos c ≠ [] → is_active_time h (get_settings c) = true →
  get_repos_per_hour (get_settings c) = PyNone →
  select_repos c h = Raise TypeError.
Proof.
  intros Hne Hact Hn.
  destruct (select_repos_unfold c h) as (ahi & Hahi & Hsel).
  rewrite Hsel. by rewrite bool_decide_eq_false_2, Hact, Hn.
Qed.

Lemma length_rotation active_repos overrides start range :
  length (rotation active_repos overrides start range) = length range.
Proof. unfold rotation. by rewrite length_fmap. Qed.

Lemma length_py_range n : Z.of_nat (length (py_range n)) = Z.max 0 n.
Proof. unfold py_range. rewrite length_seqZ. lia. Qed.

(** C6.  With an empty [active_repos] (or none), [select_repos] returns the
    empty list at every hour-of-week, whatever the active window is. *)
Theorem select_repos_empty_active_repos (c : config) (hour_of_week : Z) :
  get_active_repos c = [] → select_repos c hour_of_week = Ok [].
Proof. apply select_repos_no_repos. Qed.

Lemma select_repos_empty_active_repos_witness :
  select_repos
    {| cfg_settings := Some (open_settings 3);
       cfg_active_repos := Some [];
       cfg_overrides := None |} 42 = Ok [].
Proof. apply select_repos_empty_active_repos. reflexivity. Defined.

(** C9.  When [active_hours] is present but empty, or [active_days] is
    present but empty, [is_active_time] rejects every hour and [select_repos]
    returns the empty list, although the lists the dense index would be
    computed over fall back to all hours and all days. *)
Theorem select_repos_empty_window (c : config) (hour_of_week : Z) :
  active_hours (get_settings c) = Some [] ∨ active_days (get_settings c) = Some [] →
  is_active_time hour_of_week (get_settings c) = false ∧
  select_repos c hour_of_week = Ok [] ∧
  (active_hours (get_settings c) = Some [] →
     active_hours_list (get_settings c) = py_range 24) ∧
  (active_days (get_settings c) = Some [] →
     active_days_list (get_settings c) = py_range 7).
Proof.
  intros H.
  assert (Hact : is_active_time hour_of_week (get_settings c) = false).
  { apply not_true_is_false. intros [Hd Hh]%is_active_time_true.
    destruct H as [H|H].
    - specialize (Hh _ H). by apply elem_of_nil in Hh.
    - specialize (Hd _ H). by apply elem_of_nil in Hd. }
  split; [done|]. split; [by apply select_repos_inactive|].
  unfold active_hours_list, active_days_list.
  split; intros ->; done.
Qed.

Lemma select_repos_empty_window_witness :
  select_repos
    {| cfg_settings :=
         Some {| active_hours := Some []; active_days := None;
                 repos_per_hour := Some (PyInt 1) |};
       cfg_active_repos := Some [repo_named "a"; repo_named "b"];
       cfg_overrides := None |} 10 = Ok [].
Proof.
  refine (proj1 (proj2 (select_repos_empty_window _ 10 _))).
  left. reflexivity.
Defined.

(** C10.  With [repos_per_hour] zero or negative, [select_repos] raises
    nothing and returns the empty list, also for a non-empty [active_repos]
    at an active hour. *)
Theorem select_repos_nonpositive_per_hour (c : config) (hour_of_week n : Z) :
  get_repos_per_hour (get_settings c) = PyInt n → n ≤ 0 →
  select_repos c hour_of_week = Ok [].
Proof.
  intros Hn Hle.
  destruct (select_repos_unfold c hour_of_week) as (ahi & _ & ->).
  rewrite Hn. unfold py_range. rewrite seqZ_nil by done.
  by repeat case_match.
Qed.

Lemma select_repos_nonpositive_per_hour_witness :
  get_active_repos (sample_config (-2) ["a"; "b"]) ≠ [] ∧
  is_active_time 5 (get_settings (sample_config (-2) ["a"; "b"])) = true ∧
  select_repos (sample_config (-2) ["a"; "b"]) 5 = Ok [].
Proof.
  split; [done|]. split; [reflexivity|].
  apply (select_repos_nonpositive_per_hour _ 5 (-2)); [reflexivity|lia].
Defined.

(** C1, as the code has it.  With [repos_per_hour] an integer (1 when the
    key is absent), [select_repos] returns a list; for a non-empty
    [active_repos] at an active hour its length is [repos_per_hour] (zero
    when that is not positive), also when [repos_per_hour] exceeds the number
    of repos.  When the hour is inactive or [active_repos] is empty the
    result is the empty list, whatever [repos_per_hour] is. *)
Theorem select_repos_length (c : config) (hour_of_week : Z) :
  (∀ n, get_repos_per_hour (get_settings c) = PyInt n →
     ∃ selected, select_repos c hour_of_week = Ok selected ∧
       (get_active_repos c ≠ [] →
        is_active_time hour_of_week (get_settings c) = true →
        Z.of_nat (length selected) = Z.max 0 n)) ∧
  (get_active_repos c = [] ∨
   is_active_time hour_of_week (get_settings c) = false →
   ∃ selected, select_repos c hour_of_week = Ok selected ∧
               length selected = 0%nat).
Proof.
  destruct (select_repos_unfold c hour_of_week) as (ahi & _ & Hsel).
  split.
  - intros n Hn. rewrite Hn in Hsel.
    case_bool_decide as Hnil; [by eexists|].
    destruct (is_active_time hour_of_week (get_settings c)); [|by eexists].
    eexists. split; [exact Hsel|]. intros _ _.
    by rewrite length_rotation, length_py_range.
  - intros [Hnil|Hact]; exists []; split; try done.
    + by apply select_repos_no_repos.
    + by apply select_repos_inactive.
Qed.

Lemma select_repos_length_witness :
  ∃ selected, select_repos (sample_config 2 ["a"]) 0 = Ok selected ∧
    Z.of_nat (length selected) = 2.
Proof.
  destruct (proj1 (select_repos_length (sample_config 2 ["a"]) 0) 2 eq_refl)
    as (selected & Hsel & Hlen).
  exists selected. split; [exact Hsel|].
  apply Hlen; [done|reflexivity].
Defined.

(** C1 as stated fails: one repo and [repos_per_hour = 2] give two records at
    hour 0, not [min 2 1 = 1]. *)
Lemma select_repos_length_min_counterexample :
  get_active_repos (sample_config 2 ["a"]) = [repo_named "a"] ∧
  is_active_time 0 (get_settings (sample_config 2 ["a"])) = true ∧
  get_repos_per_hour (get_settings (sample_config 2 ["a"])) = PyInt 2 ∧
  select_repos (sample_config 2 ["a"]) 0 = Ok [repo_named "a"; repo_named "a"] ∧
  Z.of_nat (length [repo_named "a"; repo_named "a"])
  ≠ Z.min 2 (Z.of_nat (length (get_active_repos (sample_config 2 ["a"])))).
Proof.
  split; [reflexivity|]. split; [reflexivity|]. split; [reflexivity|].
  split; [vm_compute; reflexivity|]. vm_compute. discriminate.
Qed.

(** ** The rotation *)

Lemma active_repos_lookup (active_repos : list record) (x : Z) :
  active_repos ≠ [] →
  active_repos !! Z.to_nat (x `mod` Z.of_nat (length active_repos))
  = Some (active_repos !!! Z.to_nat (x `mod` Z.of_nat (length active_repos))).
Proof.
  intros Hne. apply list_lookup_lookup_total_lt.
  assert (0 < Z.of_nat (length active_repos)).
  { destruct active_repos; [done|cbn [length]; lia]. }
  pose proof (Z.mod_pos_bound x (Z.of_nat (length active_repos))). lia.
Qed.

Lemma rotation_lookup active_repos overrides start n i :
  0 ≤ i < n →
  rotation active_repos overrides start (py_range n) !! Z.to_nat i
  = Some (apply_overrides overrides
            (active_repos !!! Z.to_nat ((start + i) `mod` Z.of_nat (length active_repos)))).
Proof.
  intros Hi. unfold rotation, py_range.
  rewrite list_lookup_fmap, lookup_seqZ_lt by lia. cbn.
  by rewrite Z2Nat.id by lia.
Qed.

Lemma rotation_lookup_inv active_repos overrides start n (i : nat) rec :
  rotation active_repos overrides start (py_range n) !! i = Some rec →
  0 ≤ Z.of_nat i < n ∧
  rec = apply_overrides overrides
          (active_repos !!! Z.to_nat ((start + Z.of_nat i)
                                        `mod` Z.of_nat (length active_repos))).
Proof.
  unfold rotation, py_range. rewrite list_lookup_fmap.
  destruct (seqZ 0 n !! i) as [j|] eqn:Hj; [|done].
  apply lookup_seqZ in Hj as [-> Hlt]. cbn. intros [= <-].
  split; [lia|done].
Qed.




(** ** Overrides *)

Lemma apply_overrides_hit overrides base name o :
  base !! "name" = Some (VStr name) → overrides !! name = Some o →
  apply_overrides overrides base = o ∪ base.
Proof. intros Hn Ho. unfold apply_overrides. by rewrite Hn, Ho. Qed.

Lemma apply_overrides_miss overrides base :
  (∀ name, base !! "name" = Some (VStr name) → overrides !! name = None) →
  apply_overrides overrides base = base.
Proof.
  intros H. unfold apply_overrides.
  destruct (base !! "name") as [[| | |name]|] eqn:Hn; try done.
  by rewrite (H name).
Qed.

Lemma merge_override_wins (o base : record) k v :
  o !! k = Some v → (o ∪ base) !! k = Some v.
Proof. intros H. by apply lookup_union_Some_l. Qed.

Lemma merge_keeps_base (o base : record) k :
  o !! k = None → (o ∪ base) !! k = base !! k.
Proof. intros H. by apply lookup_union_r. Qed.

(** C5.  With [repos_per_hour] an integer (1 when the key is absent)
    [select_repos] returns, and every record of whatever it returns is the
    copy of a repo of [active_repos] with its override applied.  When the
    repo's name is a key of [overrides], the record is the shallow merge of
    the base record with the override, the override winning: a field of the
    override has the override's value, every other field is the base
    record's.  So with [overrides["alpha"] = {"branch": "dev"}] the record
    returned for "alpha" has [branch = dev] and the other fields of the base
    record. *)
Theorem select_repos_override_merge (c : config) (hour_of_week : Z) :
  (∀ n, get_repos_per_hour (get_settings c) = PyInt n →
        ∃ selected, select_repos c hour_of_week = Ok selected) ∧
  ∀ selected, select_repos c hour_of_week = Ok selected →
    ∀ (i : nat) (rec : record), selected !! i = Some rec →
      ∃ start base,
        let total_repos := Z.of_nat (length (get_active_repos c)) in
        start_index (get_settings c) total_repos hour_of_week = Ok start ∧
        get_active_repos c !! Z.to_nat ((start + Z.of_nat i) `mod` total_repos)
          = Some base ∧
        rec = apply_overrides (get_overrides c) base ∧
        (∀ name o,
           base !! "name" = Some (VStr name) → get_overrides c !! name = Some o →
           rec = o ∪ base ∧
           (∀ k v, o !! k = Some v → rec !! k = Some v) ∧
           (∀ k, o !! k = None → rec !! k = base !! k)) ∧
        (base !! "name" = Some (VStr "alpha") →
         get_overrides c !! "alpha" = Some {[ "branch" := VStr "dev" ]} →
           rec !! "branch" = Some (VStr "dev") ∧
           (∀ k, k ≠ "branch" → rec !! k = base !! k)).
Proof.
  destruct (select_repos_unfold c hour_of_week) as (ahi & Hahi & Hsel).
  split.
  { intros n Hn. rewrite Hsel, Hn. repeat case_match; by eexists. }
  intros selected Hok i rec Hi. rewrite Hsel in Hok.
  case_bool_decide as Hne.
  { injection Hok as <-. by rewrite lookup_nil in Hi. }
  destruct (is_active_time hour_of_week (get_settings c));
    [|injection Hok as <-; by rewrite lookup_nil in Hi].
  destruct (get_repos_per_hour (get_settings c)) as [n|] eqn:Hn; [|done].
  injection Hok as <-.
  apply rotation_lookup_inv in Hi as [Hrange ->].
  destruct (start_index_ok (get_settings c)
              (Z.of_nat (length (get_active_repos c))) hour_of_week n)
    as (ahi' & Hahi' & Hstart); [|done|].
  { destruct (get_active_repos c); [done|cbn [length]; lia]. }
  rewrite Hahi in Hahi'. injection Hahi' as <-.
  eexists _, _. cbn zeta.
  split; [exact Hstart|]. split; [by apply active_repos_lookup|].
  split; [done|]. split.
  - intros name o Hname Ho. rewrite (apply_overrides_hit _ _ _ _ Hname Ho).
    split; [done|]. split.
    + intros k v. apply merge_override_wins.
    + intros k. apply merge_keeps_base.
  - intros Hname Ho. rewrite (apply_overrides_hit _ _ _ _ Hname Ho). split.
    + apply merge_override_wins, lookup_singleton_eq.
    + intros k Hk. apply merge_keeps_base. by apply lookup_singleton_ne.
Qed.

Lemma select_repos_override_merge_witness :
  ∃ rec, select_repos alpha_config 0 = Ok [rec] ∧
    rec !! "branch" = Some (VStr "dev") ∧
    rec !! "name" = alpha_repo !! "name" ∧
    rec !! "team" = alpha_repo !! "team".
Proof.
  destruct (select_repos_override_merge alpha_config 0) as (Hret & Hall).
  destruct (Hret 1 eq_refl) as (selected & Hsel).
  specialize (Hall selected Hsel).
  assert (Hone : select_repos alpha_config 0
                 = Ok [apply_overrides (get_overrides alpha_config) alpha_repo])
    by (vm_compute; reflexivity).
  rewrite Hone in Hsel. injection Hsel as <-.
  destruct (Hall 0%nat _ eq_refl) as (start & base & Hstart & Hbase & _ & _ & Halpha).
  injection Hstart as <-. injection Hbase as <-.
  destruct Halpha as [Hbranch Hrest]; [reflexivity|reflexivity|].
  eexists. split; [reflexivity|]. split; [exact Hbranch|].
  split; apply Hrest; discriminate.
Defined.

(** ** Round robin over the week *)

Lemma filter_ext_elem {A} (P Q : A → Prop) `{!∀ x, Decision (P x)}
    `{!∀ x, Decision (Q x)} (l : list A) :
  (∀ x, x ∈ l → P x ↔ Q x) → filter P l = filter Q l.
Proof.
  induction l as [|x l IH]; intros Hext; [done|].
  rewrite !filter_cons.
  rewrite IH by (intros y Hy; apply Hext; by right).
  destruct (decide (P x)) as [HP|HP], (decide (Q x)) as [HQ|HQ]; try done.
  - destruct HQ. apply Hext; [by left|done].
  - destruct HP. apply Hext; [by left|done].
Qed.

(** How many numbers below [m] leave the remainder [k] modulo [N]. *)
Lemma count_residue (N k : Z) (m : nat) :
  0 < N → 0 ≤ k < N →
  Z.of_nat (length (filter (λ h, h `mod` N = k) (seqZ 0 (Z.of_nat m))))
  = Z.of_nat m / N + (if bool_decide (k < Z.of_nat m `mod` N) then 1 else 0).
Proof.
  intros HN Hk. induction m as [|m IH].
  - cbn. rewrite Z.mod_0_l by lia. rewrite bool_decide_eq_false_2 by lia. done.
  - replace (Z.of_nat (S m)) with (Z.of_nat m + 1) by lia.
    rewrite seqZ_app by lia. rewrite filter_app, length_app, Nat2Z.inj_add, IH.
    rewrite Z.add_0_l.
    replace (seqZ (Z.of_nat m) 1) with [Z.of_nat m] by (by rewrite seqZ_cons, seqZ_nil).
    rewrite filter_cons, filter_nil.
    destruct (decide (Z.of_nat m `mod` N = k)) as [Hm|Hm];
      repeat case_bool_decide; cbn [length];
      Z.div_mod_to_equations; nia.
Qed.

Section round_robin.
Context (c : config) (N : Z).
Hypothesis HN : 0 < N.
Hypothesis Htotal : Z.of_nat (length (get_active_repos c)) = N.
Hypothesis Hper_hour : get_repos_per_hour (get_settings c) = PyInt 1.
Hypothesis Hhours : active_hours (get_settings c) = None.
Hypothesis Hdays : active_days (get_settings c) = None.

Lemma open_window_active h : is_active_time h (get_settings c) = true.
Proof. apply is_active_time_true. split; intros ? ?; congruence. Qed.

Lemma open_window_index h :
  0 ≤ h ≤ 167 → active_hour_index (get_settings c) h = Ok h.
Proof.
  intros Hh. unfold active_hour_index, day_position, hour_position,
    active_days_list, active_hours_list, position_or_zero.
  rewrite Hhours, Hdays. cbn [or_list].
  assert (0 ≤ h `div` 24 < 7).
  { split; [apply Z.div_pos; lia|apply Z.div_lt_upper_bound; lia]. }
  pose proof (Z.mod_pos_bound h 24).
  rewrite !py_index_range by lia.
  rewrite !(proj2 (py_in_true _ _)) by (unfold py_range; apply elem_of_seqZ; lia).
  rewrite !bind_Ok, length_py_range. f_equal.
  Z.div_mod_to_equations. lia.
Qed.

Lemma open_window_start h :
  0 ≤ h ≤ 167 → start_index (get_settings c) N h = Ok (h `mod` N).
Proof.
  intros Hh. unfold start_index. rewrite open_window_index by done.
  rewrite bind_Ok, Hper_hour. cbn [py_mul].
  rewrite bind_Ok, py_mod_pos by done. by rewrite Z.mul_1_r.
Qed.

Lemma open_window_selected_index h :
  0 ≤ h ≤ 167 → selected_index c h 0 = Ok (h `mod` N).
Proof.
  intros Hh. unfold selected_index. rewrite Htotal, open_window_start by done.
  rewrite bind_Ok. unfold repo_index. rewrite py_mod_pos by done.
  by rewrite Z.add_0_r, Z.mod_mod by lia.
Qed.

Lemma open_window_selects k h :
  0 ≤ h ≤ 167 → selects c k h = true ↔ h `mod` N = k.
Proof.
  intros Hh. unfold selects. rewrite open_window_selected_index by done.
  apply bool_decide_eq_true.
Qed.

Lemma open_window_times_selected k :
  0 ≤ k < N →
  times_selected c k = 168 / N + (if bool_decide (k < 168 `mod` N) then 1 else 0).
Proof.
  intros Hk. unfold times_selected.
  rewrite (filter_ext_elem _ (λ h, h `mod` N = k)).
  - exact (count_residue N k 168 HN Hk).
  - intros h Hin%elem_of_seqZ. apply open_window_selects. lia.
Qed.

Lemma open_window_select_repos h :
  0 ≤ h ≤ 167 →
  ∃ repo, get_active_repos c !! Z.to_nat (h `mod` N) = Some repo ∧
    select_repos c h = Ok [apply_overrides (get_overrides c) repo].
Proof.
  intros Hh.
  assert (Hne : get_active_repos c ≠ []).
  { intros E. rewrite E in Htotal. cbn in Htotal. lia. }
  destruct (select_repos_active c h 1 Hne (open_window_active h) Hper_hour)
    as (ahi & Hahi & Hsel).
  rewrite open_window_index in Hahi by done. injection Hahi as <-.
  rewrite Hsel, Htotal, Z.mul_1_r.
  exists (get_active_repos c !!! Z.to_nat (h `mod` N)). split.
  - rewrite <- Htotal. by apply active_repos_lookup.
  - unfold rotation, py_range. rewrite seqZ_cons, seqZ_nil by lia.
    cbn [fmap list_fmap]. rewrite Htotal.
    by rewrite Z.add_0_r, Z.mod_mod by lia.
Qed.
End round_robin.

(** C3.  With [N > 0] repos, [repos_per_hour = 1] and neither [active_hours]
    nor [active_days] configured, the repo selected at hour-of-week [h] is
    [active_repos[h mod N]] for every [h] in [0, 167] (returned with its
    override applied, hence as it is when no override names it).  Over the
    168 hours the repo at [k] is selected [168 / N] times, plus once when
    [k < 168 mod N]: the floor or the ceiling of [168 / N].  The selection
    starts at the head of the list, follows list order, repeats with period
    [N], and never repeats within [N] consecutive hours. *)
Theorem select_repos_round_robin (c : config) (N : Z) :
  0 < N →
  Z.of_nat (length (get_active_repos c)) = N →
  get_repos_per_hour (get_settings c) = PyInt 1 →
  active_hours (get_settings c) = None →
  active_days (get_settings c) = None →
  (∀ h, 0 ≤ h ≤ 167 →
     selected_index c h 0 = Ok (h `mod` N) ∧
     ∃ repo,
       get_active_repos c !! Z.to_nat (h `mod` N) = Some repo ∧
       select_repos c h = Ok [apply_overrides (get_overrides c) repo] ∧
       ((∀ name, repo !! "name" = Some (VStr name) →
                 get_overrides c !! name = None) →
        select_repos c h = Ok [repo])) ∧
  (∀ k, 0 ≤ k < N →
     times_selected c k
       = 168 / N + (if bool_decide (k < 168 `mod` N) then 1 else 0) ∧
     (times_selected c k = 168 / N ∨ times_selected c k = (168 + N - 1) / N)) ∧
  (∀ h, 0 ≤ h < Z.min N 168 → selected_index c h 0 = Ok h) ∧
  (∀ h, 0 ≤ h → h + N ≤ 167 →
     selected_index c (h + N) 0 = selected_index c h 0) ∧
  (∀ h1 h2, 0 ≤ h1 < h2 → h2 ≤ 167 → h2 - h1 < N →
     selected_index c h1 0 ≠ selected_index c h2 0).
Proof.
  intros HN Htotal Hper Hhours Hdays.
  pose proof (open_window_selected_index c N HN Htotal Hper Hhours Hdays) as Hidx.
  split; [|split; [|split; [|split]]].
  - intros h Hh. split; [by apply Hidx|].
    destruct (open_window_select_repos c N HN Htotal Hper Hhours Hdays h Hh)
      as (repo & Hrepo & Hsel).
    exists repo. split; [done|]. split; [done|].
    intros Hmiss. by rewrite Hsel, apply_overrides_miss.
  - intros k Hk.
    rewrite (open_window_times_selected c N HN Htotal Hper Hhours Hdays k Hk).
    split; [done|].
    case_bool_decide; [right|left; lia].
    Z.div_mod_to_equations. nia.
  - intros h Hh. rewrite Hidx by lia. f_equal. apply Z.mod_small. lia.
  - intros h Hh HhN. rewrite !Hidx by lia. f_equal.
    rewrite <- (Z.mul_1_l N) at 1. by rewrite Z.mod_add by lia.
  - intros h1 h2 Hlt Hle Hclose. rewrite !Hidx by lia. intros [= Heq].
    assert (Hdiff : (h2 - h1) `mod` N = 0).
    { rewrite Zminus_mod, Heq, Z.sub_diag. apply Z.mod_0_l. lia. }
    rewrite Z.mod_small in Hdiff by lia. lia.
Qed.

Lemma select_repos_round_robin_witness :
  select_repos (sample_config 1 ["a"; "b"; "c"; "d"; "e"]) 7 = Ok [repo_named "c"] ∧
  times_selected (sample_config 1 ["a"; "b"; "c"; "d"; "e"]) 0 = 34 ∧
  times_selected (sample_config 1 ["a"; "b"; "c"; "d"; "e"]) 4 = 33.
Proof.
  destruct (select_repos_round_robin (sample_config 1 ["a"; "b"; "c"; "d"; "e"]) 5)
    as (Hsel & Htimes & _); [lia|reflexivity..|].
  split; [|split].
  - destruct (Hsel 7) as (_ & repo & Hrepo & _ & Hplain); [lia|].
    injection Hrepo as <-. apply Hplain. intros name _. reflexivity.
  - destruct (Htimes 0) as [-> _]; [lia|reflexivity].
  - destruct (Htimes 4) as [-> _]; [lia|reflexivity].
Defined.

(** ** Validation in [main] *)

Lemma main_with_missing_config select e a :
  path_exists e (config_path_of e a) = false →
  main_with select e a
  = {| stdout := [];
       stderr := [config_not_found_message (config_path_of e a)];
       term := SysExit 1 |}.
Proof. intros H. unfold main_with. by rewrite H. Qed.

Lemma main_with_unreadable_config select e a ex :
  path_exists e (config_path_of e a) = true →
  load_config e (config_path_of e a) = Raise ex →
  main_with select e a = {| stdout := []; stderr := []; term := Uncaught ex |}.
Proof. intros H1 H2. unfold main_with. by rewrite H1, H2. Qed.

Lemma main_with_hour_out_of_range select e a c h :
  path_exists e (config_path_of e a) = true →
  load_config e (config_path_of e a) = Ok c →
  arg_hour a = Some h → h < 0 ∨ 167 < h →
  main_with select e a
  = {| stdout := []; stderr := [hour_range_message h]; term := SysExit 1 |}.
Proof.
  intros H1 H2 H3 Hh. unfold main_with. rewrite H1, H2, H3. cbn [negb].
  destruct (Z.ltb_spec h 0), (Z.ltb_spec 167 h); try done. lia.
Qed.

(** The message names the value: two values give two messages. *)
Lemma hour_range_message_inj h1 h2 :
  hour_range_message h1 = hour_range_message h2 → h1 = h2.
Proof.
  unfold hour_range_message. intros H.
  apply (inj pretty). by apply (inj (String.append _)) in H.
Qed.

(** With the hour out of range every selection function gives one outcome. *)
Lemma main_with_out_of_range e a h :
  arg_hour a = Some h → h < 0 ∨ 167 < h →
  ∃ out, (∀ select, main_with select e a = out) ∧
    exit_status (term out) ≠ 0 ∧
    stdout out = [] ∧
    (∀ c, path_exists e (config_path_of e a) = true →
          load_config e (config_path_of e a) = Ok c →
          out = {| stdout := []; stderr := [hour_range_message h];
                   term := SysExit 1 |}).
Proof.
  intros Hhour Hh.
  destruct (path_exists e (config_path_of e a)) eqn:Hex.
  - destruct (load_config e (config_path_of e a)) as [c|ex] eqn:Hload.
    + eexists. split.
      { intros select. by eapply main_with_hour_out_of_range. }
      done.
    + eexists. split.
      { intros select. by apply main_with_unreadable_config. }
      done.
  - eexists. split.
    { intros select. by apply main_with_missing_config. }
    done.
Qed.

(** C8, as the code has it.  When [--hour] is outside [0, 167], [main] ends
    with a non-zero exit status, prints nothing on the output stream and does
    not depend on the selection function: no selection is made.  When the
    configuration file exists and loads, it ends by [sys.exit(1)] after the
    range error that names the value; the checks on the configuration file
    come first. *)
Theorem main_hour_out_of_range (e : env) (a : args) (h : Z) :
  arg_hour a = Some h → h < 0 ∨ 167 < h →
  exit_status (term (main e a)) ≠ 0 ∧
  stdout (main e a) = [] ∧
  (∀ select, main_with select e a = main e a) ∧
  (∀ c, path_exists e (config_path_of e a) = true →
        load_config e (config_path_of e a) = Ok c →
        main e a = {| stdout := []; stderr := [hour_range_message h];
                      term := SysExit 1 |}) ∧
  (∀ h', hour_range_message h' = hour_range_message h → h' = h).
Proof.
  intros Hhour Hh.
  destruct (main_with_out_of_range e a h Hhour Hh) as (out & Hall & Hexit & Hout & Hmsg).
  unfold main. rewrite !Hall. split; [done|]. split; [done|].
  split; [intros select; apply Hall|]. split; [done|].
  intros h'. apply hour_range_message_inj.
Qed.

Lemma main_hour_out_of_range_witness :
  main (sample_env true (Ok (sample_config 1 ["a"]))) (sample_args (Some 200))
  = {| stdout := [];
       stderr := ["Error: Hour of week must be between 0 and 167, got 200"];
       term := SysExit 1 |}.
Proof.
  refine (proj1 (proj2 (proj2 (proj2
    (main_hour_out_of_range (sample_env true (Ok (sample_config 1 ["a"])))
       (sample_args (Some 200)) 200 _ _)))) (sample_config 1 ["a"]) _ _);
    [reflexivity|right; lia|reflexivity|reflexivity].
Defined.

(** C8 as stated fails: with [--hour 200] and no configuration file the run
    reports the missing file, not the range error. *)
Lemma main_hour_out_of_range_counterexample :
  arg_hour (sample_args (Some 200)) = Some 200 ∧
  main (sample_env false (Ok (sample_config 1 ["a"]))) (sample_args (Some 200))
  = {| stdout := [];
       stderr := ["Error: Config file not found: config.yml"];
       term := SysExit 1 |} ∧
  stderr (main (sample_env false (Ok (sample_config 1 ["a"])))
               (sample_args (Some 200)))
  ≠ [hour_range_message 200].
Proof.
  split; [reflexivity|]. split; [vm_compute; reflexivity|].
  vm_compute. discriminate.
Qed.

(** ** The store: inputs are not modified *)

Lemma lookup_total_weaken (σ0 σ : store) (l : loc) :
  σ0 ⊆ σ → l ∈ dom σ0 → σ !!! l = σ0 !!! l.
Proof.
  intros Hsub [d Hd]%elem_of_dom.
  rewrite !lookup_total_alt, Hd. by rewrite (lookup_weaken _ _ _ _ Hd Hsub).
Qed.

Lemma contents_weaken (σ0 σ : store) (refs : list loc) :
  σ0 ⊆ σ → (∀ l, l ∈ refs → l ∈ dom σ0) → contents σ refs = contents σ0 refs.
Proof.
  intros Hsub Hin. unfold contents. apply list_fmap_ext.
  intros i l Hl. apply lookup_total_weaken; [done|].
  apply Hin. by eapply list_elem_of_lookup_2.
Qed.

Lemma contents_map_weaken (σ0 σ : store) (refs : gmap string loc) :
  σ0 ⊆ σ → (∀ k l, refs !! k = Some l → l ∈ dom σ0) →
  contents_map σ refs = contents_map σ0 refs.
Proof.
  intros Hsub Hin. unfold contents_map. apply map_fmap_ext.
  intros k l Hl. apply lookup_total_weaken; [done|]. by eapply Hin.
Qed.

Lemma length_contents σ refs : length (contents σ refs) = length refs.
Proof. unfold contents. apply length_fmap. Qed.

(** The step on the store allocates one dict, the copy with its override
    applied, and touches nothing else. *)
Lemma select_step_st_alloc σ0 refs ovs start sel σ i :
  refs ≠ [] →
  (∀ l, l ∈ refs → l ∈ dom σ0) →
  (∀ k l, ovs !! k = Some l → l ∈ dom σ0) →
  σ0 ⊆ σ →
  ∃ rec,
    rotation (contents σ0 refs) (contents_map σ0 ovs) start [i] = [rec] ∧
    select_step_st refs ovs start (Z.of_nat (length refs)) (sel, σ) i
    = Ok (sel ++ [fresh (dom σ)], <[fresh (dom σ) := rec]> σ).
Proof.
  intros Hne Hrefs Hovs Hsub.
  assert (Hlen : 0 < Z.of_nat (length refs)).
  { destruct refs; [done|cbn [length]; lia]. }
  eexists. split; [reflexivity|].
  unfold select_step_st, repo_index. rewrite py_mod_pos, bind_Ok by done.
  destruct (py_getitem_nonneg refs ((start + i) `mod` Z.of_nat (length refs)))
    as (src & -> & Hsrc); [by apply Z.mod_pos_bound|].
  rewrite bind_Ok. cbn [dict_copy fst snd]. do 2 f_equal.
  assert (Hsrc0 : src ∈ dom σ0) by (apply Hrefs; by eapply list_elem_of_lookup_2).
  pose proof (is_fresh (dom σ)) as Hfresh.
  set (repo := fresh (dom σ)) in *.
  rewrite lookup_total_insert_eq, (lookup_total_weaken σ0 σ src) by done.
  rewrite length_contents.
  assert (Hbase : contents σ0 refs
                    !!! Z.to_nat ((start + i) `mod` Z.of_nat (length refs))
                  = σ0 !!! src).
  { rewrite list_lookup_total_alt. unfold contents.
    by rewrite list_lookup_fmap, Hsrc. }
  rewrite Hbase. unfold apply_overrides, contents_map.
  destruct ((σ0 !!! src) !! "name") as [[| | |name]|]; try done.
  rewrite lookup_fmap. destruct (ovs !! name) as [o|] eqn:Ho; [|done].
  cbn. unfold dict_update.
  assert (Ho0 : o ∈ dom σ0) by (by eapply Hovs).
  assert (o ≠ repo).
  { intros ->. apply Hfresh. by apply (subseteq_dom σ0 σ). }
  rewrite lookup_total_insert_eq, lookup_total_insert_ne by done.
  by rewrite insert_insert_eq, (lookup_total_weaken σ0 σ o).
Qed.

(** The loop on the store: the input objects stay as they were, the result
    is a list of new, distinct objects, and they hold what the loop over
    values computes. *)
Lemma for_each_select_step_st σ0 refs ovs start range sel σ :
  refs ≠ [] →
  (∀ l, l ∈ refs → l ∈ dom σ0) →
  (∀ k l, ovs !! k = Some l → l ∈ dom σ0) →
  σ0 ⊆ σ →
  ∃ new σ',
    for_each (select_step_st refs ovs start (Z.of_nat (length refs))) range (sel, σ)
    = Ok (sel ++ new, σ') ∧
    σ ⊆ σ' ∧
    (∀ l, l ∈ new → (l ∉ dom σ) ∧ (l ∈ dom σ')) ∧
    NoDup new ∧
    contents σ' new
    = rotation (contents σ0 refs) (contents_map σ0 ovs) start range.
Proof.
  intros Hne Hrefs Hovs. revert sel σ.
  induction range as [|i range IH]; intros sel σ Hsub.
  - exists [], σ. cbn. rewrite app_nil_r.
    split; [done|]. split; [done|].
    split; [intros l Hl; by apply elem_of_nil in Hl|].
    split; [constructor|done].
  - destruct (select_step_st_alloc σ0 refs ovs start sel σ i Hne Hrefs Hovs Hsub)
      as (rec & Hrec & Hstep).
    pose proof (is_fresh (dom σ)) as Hfresh.
    set (repo := fresh (dom σ)) in *.
    assert (Hsub1 : σ ⊆ <[repo := rec]> σ).
    { apply insert_subseteq. by apply not_elem_of_dom. }
    destruct (IH (sel ++ [repo]) (<[repo := rec]> σ)) as (new & σ' & Hloop & Hsub' & Hnew & Hnd & Hcont).
    { by etrans. }
    exists (repo :: new), σ'. cbn [for_each]. rewrite Hstep, bind_Ok, Hloop.
    rewrite <- app_assoc. split; [done|].
    assert (Hrepo : repo ∈ dom (<[repo := rec]> σ)).
    { apply elem_of_dom. eexists. apply lookup_insert_eq. }
    split; [by etrans|]. split; [|split].
    + intros l [->|Hl]%elem_of_cons.
      * split; [done|]. by apply (subseteq_dom _ _ Hsub').
      * destruct (Hnew l Hl) as [Hout Hin]. split; [|done].
        intros Hσ. apply Hout. by apply (subseteq_dom _ _ Hsub1).
    + constructor; [|done]. intros Hl. by destruct (Hnew repo Hl).
    + change (contents σ' (repo :: new)) with (σ' !!! repo :: contents σ' new).
      rewrite Hcont, (lookup_total_weaken _ σ' repo Hsub' Hrepo).
      rewrite lookup_total_insert_eq.
      change (i :: range) with ([i] ++ range).
      unfold rotation in *. rewrite fmap_app, Hrec. done.
Qed.

Lemma match_nonempty {A B} (l : list A) (x y : B) :
  l ≠ [] → match l with [] => x | _ :: _ => y end = y.
Proof. by destruct l. Qed.

Lemma get_active_repos_read σ c :
  get_active_repos (read_config σ c) = contents σ (default [] (ref_active_repos c)).
Proof. unfold get_active_repos, read_config. cbn. by destruct (ref_active_repos c). Qed.

Lemma get_overrides_read σ c :
  get_overrides (read_config σ c) = contents_map σ (default ∅ (ref_overrides c)).
Proof.
  unfold get_overrides, read_config, contents_map. cbn.
  destruct (ref_overrides c); [done|]. cbn. by rewrite fmap_empty.
Qed.

Lemma read_config_weaken σ0 σ c :
  config_in_store σ0 c → σ0 ⊆ σ → read_config σ c = read_config σ0 c.
Proof.
  intros [Hrefs Hovs] Hsub. unfold read_config. f_equal.
  - destruct (ref_active_repos c) as [refs|]; [|done]. cbn. f_equal.
    by apply contents_weaken.
  - destruct (ref_overrides c) as [ovs|]; [|done]. cbn. f_equal.
    by apply contents_map_weaken.
Qed.

(** [select_repos] on a store that extends the one the configuration was
    read in.  When [select_repos] on the configuration returns, the run on
    the store returns new, distinct objects, leaves every object of the store
    as it was, and the new objects hold the records of that result; when it
    raises, the run on the store raises the same exception. *)
Lemma select_repos_st_refines c h σ0 σ :
  config_in_store σ0 c → σ0 ⊆ σ →
  match select_repos (read_config σ0 c) h with
  | Ok selected =>
      ∃ out σ',
        select_repos_st c h σ = Ok (out, σ') ∧
        σ ⊆ σ' ∧
        (∀ l, l ∈ out → (l ∉ dom σ) ∧ (l ∈ dom σ')) ∧
        NoDup out ∧
        contents σ' out = selected
  | Raise e => select_repos_st c h σ = Raise e
  end.
Proof.
  intros [Hrefs Hovs] Hsub.
  destruct (select_repos_unfold (read_config σ0 c) h) as (ahi & Hahi & ->).
  rewrite get_active_repos_read, get_overrides_read.
  change (get_settings (read_config σ0 c))
    with (default empty_settings (ref_settings c)) in *.
  unfold select_repos_st.
  set (s := default empty_settings (ref_settings c)) in *.
  set (refs := default [] (ref_active_repos c)) in *.
  set (ovs := default ∅ (ref_overrides c)) in *.
  assert (Hnone : ∃ out σ', Ok ([], σ) = Ok (out, σ') ∧ σ ⊆ σ' ∧
            (∀ l, l ∈ out → (l ∉ dom σ) ∧ (l ∈ dom σ')) ∧ NoDup out ∧
            contents σ' out = []).
  { exists [], σ. split; [done|]. split; [done|].
    split; [intros l Hl; by apply elem_of_nil in Hl|].
    split; [constructor|done]. }
  destruct (decide (refs = [])) as [Hnil|Hne].
  { rewrite Hnil. cbn. exact Hnone. }
  rewrite match_nonempty by done.
  rewrite bool_decide_eq_false_2.
  2:{ intros E. apply Hne. apply (f_equal length) in E.
      rewrite length_contents in E. by apply nil_length_inv. }
  destruct (is_active_time h s); cbn [negb]; [|exact Hnone].
  rewrite length_contents.
  destruct (get_repos_per_hour s) as [n|] eqn:Hn.
  2:{ by rewrite start_index_null. }
  destruct (start_index_ok s (Z.of_nat (length refs)) h n) as (ahi' & Hahi' & ->);
    [|done|].
  { destruct refs; [done|cbn [length]; lia]. }
  rewrite Hahi in Hahi'. injection Hahi' as <-.
  cbn [py_range_of]. rewrite !bind_Ok.
  destruct (for_each_select_step_st σ0 refs ovs
              ((ahi * n) `mod` Z.of_nat (length refs))
              (py_range n) [] σ Hne Hrefs Hovs Hsub)
    as (new & σ' & Hloop & Hsub' & Hnew & Hnd & Hcont).
  exists new, σ'. rewrite Hloop. done.
Qed.

Lemma observe_select_repos_st c h σ0 σ :
  config_in_store σ0 c → σ0 ⊆ σ →
  observe (select_repos_st c h σ) = select_repos (read_config σ0 c) h ∧
  σ ⊆ store_after (select_repos_st c h σ) σ.
Proof.
  intros Hwf Hsub. pose proof (select_repos_st_refines c h σ0 σ Hwf Hsub) as H.
  destruct (select_repos (read_config σ0 c) h) as [selected|e].
  - destruct H as (out & σ' & -> & Hsub' & _ & _ & <-). done.
  - rewrite H. done.
Qed.

Lemma select_repos_returns c h n :
  get_repos_per_hour (get_settings c) = PyInt n →
  ∃ selected, select_repos c h = Ok selected.
Proof.
  intros Hn. destruct (select_repos_unfold c h) as (ahi & _ & ->).
  rewrite Hn. repeat case_match; by eexists.
Qed.

(** C7.  [select_repos] has no hidden state.  On the store, where the
    configuration is a graph of mutable dicts, what a run shows (the
    records returned, or the exception) is the value of [select_repos] on
    the configuration and the hour; so a second run right after the first
    shows the same, and so does a run in any other store on a configuration
    that reads the same.  The configuration reads the same after each run,
    the records of the first result are not disturbed by the second run, and
    with [repos_per_hour] an integer (1 when the key is absent) the runs
    return. *)
Theorem select_repos_deterministic (c : config_refs) (hour_of_week : Z) (σ : store) :
  config_in_store σ c →
  let run1 := select_repos_st c hour_of_week σ in
  let σ1 := store_after run1 σ in
  let run2 := select_repos_st c hour_of_week σ1 in
  let σ2 := store_after run2 σ1 in
  observe run1 = select_repos (read_config σ c) hour_of_week ∧
  observe run2 = observe run1 ∧
  (∀ c' σ', config_in_store σ' c' → read_config σ' c' = read_config σ c →
            observe (select_repos_st c' hour_of_week σ') = observe run1) ∧
  read_config σ1 c = read_config σ c ∧
  read_config σ2 c = read_config σ c ∧
  (∀ out1 σ1', run1 = Ok (out1, σ1') → contents σ2 out1 = contents σ1' out1) ∧
  (∀ n, get_repos_per_hour (default empty_settings (ref_settings c)) = PyInt n →
        ∃ out1 out2 σ2', run1 = Ok (out1, σ1) ∧ run2 = Ok (out2, σ2')).
Proof.
  intros Hwf run1 σ1 run2 σ2.
  destruct (observe_select_repos_st c hour_of_week σ σ Hwf) as [Hobs1 Hsub1]; [done|].
  fold run1 in Hobs1. fold run1 σ1 in Hsub1.
  destruct (observe_select_repos_st c hour_of_week σ σ1 Hwf Hsub1) as [Hobs2 Hsub2].
  fold run2 in Hobs2. fold run2 σ2 in Hsub2.
  split; [done|]. split; [congruence|]. split.
  { intros c' σ' Hwf' Hread.
    destruct (observe_select_repos_st c' hour_of_week σ' σ' Hwf') as [-> _]; [done|].
    by rewrite Hread, Hobs1. }
  split; [by apply read_config_weaken|].
  split; [apply read_config_weaken; [done|by etrans]|]. split.
  - intros out1 σ1' Hrun1.
    pose proof (select_repos_st_refines c hour_of_week σ σ Hwf) as Href.
    assert (Hσ1 : σ1 = σ1') by (subst σ1; by rewrite Hrun1).
    destruct (select_repos (read_config σ c) hour_of_week) as [selected|e].
    + destruct Href as (out & σ' & Hrun & _ & Hnew & _); [done|].
      fold run1 in Hrun. rewrite Hrun1 in Hrun. injection Hrun as <- <-.
      rewrite <- Hσ1. apply contents_weaken; [done|].
      intros l Hl. rewrite Hσ1. by apply Hnew.
    + specialize (Href (reflexivity σ)). fold run1 in Href. congruence.
  - intros n Hn.
    destruct (select_repos_returns (read_config σ c) hour_of_week n Hn)
      as (selected & Hsel).
    rewrite Hsel in Hobs1, Hobs2. subst σ2 run2 σ1.
    destruct run1 as [[out1 σ1']|]; [|done]. cbn [store_after] in *.
    destruct (select_repos_st c hour_of_week σ1') as [[out2 σ2']|]; [|done].
    by exists out1, out2, σ2'.
Qed.

Lemma select_repos_deterministic_witness :
  ∃ out1 σ1 out2 σ2,
    select_repos_st sample_config_refs 0 sample_store = Ok (out1, σ1) ∧
    select_repos_st sample_config_refs 0 σ1 = Ok (out2, σ2) ∧
    contents σ1 out1 = contents σ2 out2.
Proof.
  pose proof (select_repos_deterministic sample_config_refs 0 sample_store) as H.
  destruct H as (_ & Hsame & _ & _ & _ & _ & Hret).
  - split.
    + intros l Hl. cbn in Hl.
      apply elem_of_cons in Hl as [->|Hl]; [compute_done|].
      apply elem_of_cons in Hl as [->|Hl]; [compute_done|].
      by apply elem_of_nil in Hl.
    + intros k l Hl. cbn in Hl.
      apply lookup_singleton_Some in Hl as [_ <-]. compute_done.
  - destruct (Hret 3 eq_refl) as (out1 & out2 & σ2 & Hrun1 & Hrun2).
    rewrite Hrun2, Hrun1 in Hsame. cbn [observe] in Hsame.
    injection Hsame as Hsame.
    eexists out1, _, out2, σ2. split; [exact Hrun1|].
    split; [exact Hrun2|]. rewrite Hrun1. cbn [store_after]. done.
Defined.

(** * Further properties of the script *)

(** ** [get_hour_of_week] and the active window *)

Lemma hour_of_week_decompose (d h : Z) :
  0 ≤ h ≤ 23 → (d * 24 + h) `div` 24 = d ∧ (d * 24 + h) `mod` 24 = h.
Proof. intros Hh. Z.div_mod_to_equations. lia. Qed.

Lemma get_hour_of_week_parts (e : env) (dt : option datetime) :
  valid_datetime (default (utc_now e) dt) →
  0 ≤ get_hour_of_week e dt ≤ 167 ∧
  get_hour_of_week e dt `div` 24 = dt_weekday (default (utc_now e) dt) ∧
  get_hour_of_week e dt `mod` 24 = dt_hour (default (utc_now e) dt).
Proof.
  intros [Hd Hh]. unfold get_hour_of_week.
  destruct (hour_of_week_decompose (dt_weekday (default (utc_now e) dt))
              (dt_hour (default (utc_now e) dt)) Hh) as [Hdiv Hmod].
  split; [lia|done].
Qed.

(** X1.  For a datetime ([weekday()] in 0..6, [hour] in 0..23), also the
    current one when none is given, [get_hour_of_week] is in [0, 167], and
    the decomposition the rest of the script uses recovers the weekday by
    [// 24] and the hour by [% 24]; so two datetimes with the same hour of
    week have the same weekday and the same hour. *)
Theorem get_hour_of_week_round_trip (e : env) (dt : option datetime) :
  valid_datetime (default (utc_now e) dt) →
  0 ≤ get_hour_of_week e dt ≤ 167 ∧
  get_hour_of_week e dt `div` 24 = dt_weekday (default (utc_now e) dt) ∧
  get_hour_of_week e dt `mod` 24 = dt_hour (default (utc_now e) dt) ∧
  (∀ dt', valid_datetime dt' →
          get_hour_of_week e (Some dt') = get_hour_of_week e dt →
          dt_weekday dt' = dt_weekday (default (utc_now e) dt) ∧
          dt_hour dt' = dt_hour (default (utc_now e) dt)).
Proof.
  intros Hv. destruct (get_hour_of_week_parts e dt Hv) as (Hr & Hdiv & Hmod).
  split; [done|]. split; [done|]. split; [done|].
  intros dt' Hv' Heq.
  destruct (get_hour_of_week_parts e (Some dt') Hv') as (_ & Hdiv' & Hmod').
  change (default (utc_now e) (Some dt')) with dt' in Hdiv', Hmod'.
  rewrite Heq in Hdiv', Hmod'. split; congruence.
Qed.

Lemma get_hour_of_week_round_trip_witness :
  get_hour_of_week (sample_env true (Raise YAMLError)) (Some wednesday_14) = 62 ∧
  62 `div` 24 = 2 ∧ 62 `mod` 24 = 14.
Proof.
  destruct (get_hour_of_week_round_trip (sample_env true (Raise YAMLError))
              (Some wednesday_14)) as (_ & Hdiv & Hmod & _).
  - split; cbn; lia.
  - split; [reflexivity|]. split; [exact Hdiv|exact Hmod].
Defined.

(** X2.  The hour computed from a datetime is active exactly when the
    weekday is in [active_days], if that is configured, and the hour is in
    [active_hours], if that is configured. *)
Theorem is_active_time_of_datetime (e : env) (dt : datetime) (s : settings) :
  valid_datetime dt →
  is_active_time (get_hour_of_week e (Some dt)) s = true ↔
  (∀ days, active_days s = Some days → dt_weekday dt ∈ days) ∧
  (∀ hours, active_hours s = Some hours → dt_hour dt ∈ hours).
Proof.
  intros Hv.
  destruct (get_hour_of_week_parts e (Some dt) Hv) as (_ & Hdiv & Hmod).
  rewrite is_active_time_true, Hdiv, Hmod. done.
Qed.

Lemma is_active_time_of_datetime_witness :
  is_active_time
    (get_hour_of_week (sample_env true (Raise YAMLError)) (Some wednesday_14))
    office_settings = true.
Proof.
  apply (is_active_time_of_datetime _ wednesday_14 office_settings).
  - split; cbn; lia.
  - split; intros l [= <-]; compute_done.
Defined.

(** ** The dense index *)

Lemma active_lists_elem s h :
  0 ≤ h ≤ 167 → is_active_time h s = true →
  h `div` 24 ∈ active_days_list s ∧ h `mod` 24 ∈ active_hours_list s.
Proof.
  intros Hh [Hd Hhr]%is_active_time_true. split.
  - unfold active_days_list. destruct (active_days s) as [days|] eqn:E.
    + specialize (Hd _ eq_refl). destruct days; [by apply elem_of_nil in Hd|done].
    + cbn. unfold py_range. apply elem_of_seqZ.
      assert (0 ≤ h `div` 24 < 7); [|lia].
      split; [apply Z.div_pos; lia|apply Z.div_lt_upper_bound; lia].
  - unfold active_hours_list. destruct (active_hours s) as [hours|] eqn:E.
    + specialize (Hhr _ eq_refl). destruct hours; [by apply elem_of_nil in Hhr|done].
    + cbn. unfold py_range. apply elem_of_seqZ.
      pose proof (Z.mod_pos_bound h 24). lia.
Qed.

Lemma active_hour_index_positions s h :
  0 ≤ h ≤ 167 → is_active_time h s = true →
  ∃ dp hp,
    active_hour_index s h = Ok (dp * Z.of_nat (length (active_hours_list s)) + hp) ∧
    0 ≤ dp < Z.of_nat (length (active_days_list s)) ∧
    0 ≤ hp < Z.of_nat (length (active_hours_list s)) ∧
    active_days_list s !! Z.to_nat dp = Some (h `div` 24) ∧
    active_hours_list s !! Z.to_nat hp = Some (h `mod` 24).
Proof.
  intros Hh Hact. destruct (active_lists_elem s h Hh Hact) as [Hday Hhour].
  destruct (position_or_zero_elem _ _ Hday) as (dp & Hdp & Hdb & Hdl).
  destruct (position_or_zero_elem _ _ Hhour) as (hp & Hhp & Hhb & Hhl).
  exists dp, hp. unfold active_hour_index, day_position, hour_position.
  rewrite Hdp, Hhp. done.
Qed.

(** X10.  Over the active hours of a week the dense index stays below
    [len(active_days) * len(active_hours)], and two different active hours
    never share an index, whatever the order of the configured lists and
    also when they repeat an element. *)
Theorem active_hour_index_dense (s : settings) (h1 h2 : Z) :
  0 ≤ h1 ≤ 167 → 0 ≤ h2 ≤ 167 →
  is_active_time h1 s = true → is_active_time h2 s = true →
  ∃ i1 i2,
    active_hour_index s h1 = Ok i1 ∧ active_hour_index s h2 = Ok i2 ∧
    0 ≤ i1 < Z.of_nat (length (active_days_list s))
             * Z.of_nat (length (active_hours_list s)) ∧
    (i1 = i2 → h1 = h2).
Proof.
  intros Hh1 Hh2 Ha1 Ha2.
  destruct (active_hour_index_positions s h1 Hh1 Ha1)
    as (dp1 & hp1 & -> & Hd1 & Hp1 & Hdl1 & Hhl1).
  destruct (active_hour_index_positions s h2 Hh2 Ha2)
    as (dp2 & hp2 & -> & Hd2 & Hp2 & Hdl2 & Hhl2).
  eexists _, _. split; [done|]. split; [done|]. split; [nia|].
  intros Heq.
  assert (dp1 = dp2) as -> by nia.
  assert (hp1 = hp2) as -> by lia.
  rewrite Hdl1 in Hdl2. rewrite Hhl1 in Hhl2.
  injection Hdl2 as Hdiv. injection Hhl2 as Hmod.
  rewrite (Z.div_mod h1 24), (Z.div_mod h2 24) by lia. congruence.
Qed.

Lemma active_hour_index_dense_witness :
  ∃ i1 i2,
    active_hour_index office_settings 9 = Ok i1 ∧
    active_hour_index office_settings 62 = Ok i2 ∧
    0 ≤ i1 < 3 * 4 ∧ (i1 = i2 → 9 = 62).
Proof.
  destruct (active_hour_index_dense office_settings 9 62)
    as (i1 & i2 & H1 & H2 & Hb & Hinj); [lia|lia|reflexivity|reflexivity|].
  by exists i1, i2.
Defined.

(** X12.  The hour range is checked by [main], not by [select_repos].  For an
    hour outside [0, 167], with [active_days] not configured, the day falls
    back to position 0 and [select_repos] returns what it returns at the
    same hour of Monday. *)
Theorem select_repos_hour_fallback (c : config) (hour_of_week : Z) :
  active_days (get_settings c) = None →
  hour_of_week < 0 ∨ 167 < hour_of_week →
  select_repos c hour_of_week = select_repos c (hour_of_week `mod` 24).
Proof.
  intros Hdays Hout.
  pose proof (Z.mod_pos_bound hour_of_week 24) as Hm.
  assert (Hact : is_active_time (hour_of_week `mod` 24) (get_settings c)
                 = is_active_time hour_of_week (get_settings c)).
  { unfold is_active_time. by rewrite Hdays, Z.mod_mod. }
  assert (Hidx : active_hour_index (get_settings c) (hour_of_week `mod` 24)
                 = active_hour_index (get_settings c) hour_of_week).
  { unfold active_hour_index, hour_position. rewrite Z.mod_mod by done.
    f_equal. unfold day_position, active_days_list. rewrite Hdays. cbn [or_list].
    rewrite Z.div_small by lia.
    unfold position_or_zero.
    rewrite (proj2 (py_in_true 0 (py_range 7)))
      by (unfold py_range; apply elem_of_seqZ; lia).
    rewrite py_index_range by lia.
    rewrite (proj2 (py_in_false (hour_of_week `div` 24) (py_range 7))); [done|].
    unfold py_range. rewrite elem_of_seqZ. intros [H0 H7].
    Z.div_mod_to_equations. lia. }
  destruct (select_repos_unfold c hour_of_week) as (a1 & Ha1 & ->).
  destruct (select_repos_unfold c (hour_of_week `mod` 24)) as (a2 & Ha2 & ->).
  rewrite Hidx, Ha1 in Ha2. injection Ha2 as <-. by rewrite Hact.
Qed.

Lemma select_repos_hour_fallback_witness :
  select_repos (sample_config 2 ["a"; "b"; "c"]) 200
  = select_repos (sample_config 2 ["a"; "b"; "c"]) 8.
Proof.
  apply (select_repos_hour_fallback (sample_config 2 ["a"; "b"; "c"]) 200);
    [reflexivity|right; lia].
Defined.

(** ** Overrides are applied after the choice *)

Lemma apply_overrides_empty repo : apply_overrides ∅ repo = repo.
Proof. apply apply_overrides_miss. intros name _. apply lookup_empty. Qed.

Lemma rotation_fmap active_repos overrides start range :
  rotation active_repos overrides start range
  = apply_overrides overrides <$> rotation active_repos ∅ start range.
Proof.
  unfold rotation. rewrite <- list_fmap_compose. apply list_fmap_ext.
  intros i x _. cbn. by rewrite apply_overrides_empty.
Qed.

Lemma rotation_empty_subset active_repos start range repo :
  active_repos ≠ [] →
  repo ∈ rotation active_repos ∅ start range → repo ∈ active_repos.
Proof.
  intros Hne. unfold rotation. intros (i & -> & _)%list_elem_of_fmap.
  rewrite apply_overrides_empty.
  eapply list_elem_of_lookup_2. by apply active_repos_lookup.
Qed.

(** X13.  The overrides change the records returned, never which repos are
    chosen nor whether the call returns.  When [select_repos] on the same
    configuration without [overrides] returns, every record it returns is
    one of [active_repos], and [select_repos] on the configuration returns
    these records, each merged with its override; when one raises, the
    other raises the same exception.  With [repos_per_hour] an integer (1
    when the key is absent) both return. *)
Theorem select_repos_overrides_pointwise (c : config) (hour_of_week : Z) :
  match select_repos (without_overrides c) hour_of_week with
  | Ok chosen =>
      (∀ repo, repo ∈ chosen → repo ∈ get_active_repos c) ∧
      select_repos c hour_of_week
      = Ok (apply_overrides (get_overrides c) <$> chosen)
  | Raise e => select_repos c hour_of_week = Raise e
  end ∧
  (∀ n, get_repos_per_hour (get_settings c) = PyInt n →
        ∃ chosen, select_repos (without_overrides c) hour_of_week = Ok chosen).
Proof.
  split; [|intros n Hn; by apply (select_repos_returns (without_overrides c) _ n)].
  destruct (select_repos_unfold c hour_of_week) as (a1 & Ha1 & ->).
  destruct (select_repos_unfold (without_overrides c) hour_of_week)
    as (a2 & Ha2 & ->).
  change (get_settings (without_overrides c)) with (get_settings c) in *.
  change (get_active_repos (without_overrides c)) with (get_active_repos c).
  change (get_overrides (without_overrides c)) with (∅ : gmap string record).
  rewrite Ha1 in Ha2. injection Ha2 as <-.
  case_bool_decide as Hne.
  { split; [|done]. intros repo Hr. by apply elem_of_nil in Hr. }
  destruct (is_active_time hour_of_week (get_settings c)).
  - destruct (get_repos_per_hour (get_settings c)) as [n|]; [|done].
    split; [|by rewrite rotation_fmap].
    intros repo Hr. by eapply rotation_empty_subset.
  - split; [|done]. intros repo Hr. by apply elem_of_nil in Hr.
Qed.

Lemma select_repos_overrides_pointwise_witness :
  select_repos (without_overrides alpha_config) 0 = Ok [alpha_repo] ∧
  select_repos alpha_config 0
  = Ok [apply_overrides (get_overrides alpha_config) alpha_repo].
Proof.
  destruct (select_repos_overrides_pointwise alpha_config 0) as [Hrel Hret].
  destruct (Hret 1 eq_refl) as (chosen & Hchosen).
  rewrite Hchosen in Hrel. destruct Hrel as [_ Hsel].
  assert (Hone : select_repos (without_overrides alpha_config) 0 = Ok [alpha_repo])
    by (vm_compute; reflexivity).
  rewrite Hone in Hchosen. injection Hchosen as <-.
  split; [exact Hone|exact Hsel].
Defined.

(** ** Blocks of consecutive hours *)

Lemma open_window_rotation c h n :
  get_active_repos c ≠ [] →
  active_hours (get_settings c) = None →
  active_days (get_settings c) = None →
  get_repos_per_hour (get_settings c) = PyInt n →
  0 ≤ h ≤ 167 →
  select_repos c h
  = Ok (rotation (get_active_repos c) (get_overrides c)
          ((h * n) `mod` Z.of_nat (length (get_active_repos c))) (py_range n)).
Proof.
  intros Hne Hhours Hdays Hn Hh.
  destruct (select_repos_active c h n Hne (open_window_active c Hhours Hdays h) Hn)
    as (ahi & Hahi & ->).
  rewrite (open_window_index c Hhours Hdays h Hh) in Hahi. by injection Hahi as <-.
Qed.

(** X11.  With no window configured and [repos_per_hour] a positive integer
    [n], [select_repos] at hour [h] returns the repos at the positions
    [(h * n + i) mod total_repos] for [i < n], overrides applied; so the
    first record of hour [h + 1] is the repo that follows, cyclically, the
    last one of hour [h]: no repo is skipped from one hour of the week to the
    next.  The first record of hour 0 is the head of the list. *)
Theorem select_repos_consecutive_blocks (c : config) (h n : Z) :
  get_active_repos c ≠ [] →
  active_hours (get_settings c) = None →
  active_days (get_settings c) = None →
  get_repos_per_hour (get_settings c) = PyInt n →
  0 < n →
  0 ≤ h < 167 →
  let total_repos := Z.of_nat (length (get_active_repos c)) in
  let at_position p :=
    apply_overrides (get_overrides c) <$> (get_active_repos c !! Z.to_nat p) in
  ∃ this next first last_position,
    select_repos c h = Ok this ∧
    select_repos c (h + 1) = Ok next ∧
    select_repos c 0 = Ok first ∧
    (∀ i, 0 ≤ i < n →
       is_Some (this !! Z.to_nat i) ∧
       this !! Z.to_nat i = at_position ((h * n + i) `mod` total_repos)) ∧
    0 ≤ last_position < total_repos ∧
    last this = at_position last_position ∧
    head next = at_position ((last_position + 1) `mod` total_repos) ∧
    is_Some (head next) ∧
    head first = at_position 0.
Proof.
  intros Hne Hhours Hdays Hn Hpos Hh total_repos at_position.
  assert (Hlen : 0 < total_repos).
  { subst total_repos. destruct (get_active_repos c); [done|cbn [length]; lia]. }
  assert (Hat : ∀ start i, 0 ≤ i < n →
            rotation (get_active_repos c) (get_overrides c) start (py_range n)
              !! Z.to_nat i
            = at_position ((start + i) `mod` total_repos) ∧
            is_Some (at_position ((start + i) `mod` total_repos))).
  { intros start i Hi. rewrite rotation_lookup by done.
    subst at_position total_repos. cbn beta.
    rewrite active_repos_lookup by done. split; [done|by eexists]. }
  exists (rotation (get_active_repos c) (get_overrides c)
            ((h * n) `mod` total_repos) (py_range n)),
         (rotation (get_active_repos c) (get_overrides c)
            (((h + 1) * n) `mod` total_repos) (py_range n)),
         (rotation (get_active_repos c) (get_overrides c)
            ((0 * n) `mod` total_repos) (py_range n)),
         ((h * n + (n - 1)) `mod` total_repos).
  split; [apply open_window_rotation; (done || lia)|].
  split; [apply open_window_rotation; (done || lia)|].
  split; [apply open_window_rotation; (done || lia)|].
  split.
  { intros i Hi. destruct (Hat ((h * n) `mod` total_repos) i Hi) as [Hl Hs].
    rewrite Z.add_mod_idemp_l in Hl, Hs by lia. rewrite Hl. done. }
  split; [by apply Z.mod_pos_bound|].
  split.
  { rewrite last_lookup, length_rotation.
    destruct (Hat ((h * n) `mod` total_repos) (n - 1)) as [Hl _]; [lia|].
    rewrite Z.add_mod_idemp_l in Hl by lia. rewrite <- Hl. f_equal.
    pose proof (length_py_range n). lia. }
  rewrite !head_lookup.
  destruct (Hat (((h + 1) * n) `mod` total_repos) 0) as [Hl Hs]; [lia|].
  destruct (Hat ((0 * n) `mod` total_repos) 0) as [Hl0 _]; [lia|].
  change (Z.to_nat 0) with 0%nat in Hl, Hl0.
  rewrite Z.add_mod_idemp_l in Hl, Hs by lia.
  assert (Heq : ((h * n + (n - 1)) `mod` total_repos + 1) `mod` total_repos
                = ((h + 1) * n + 0) `mod` total_repos).
  { rewrite Z.add_mod_idemp_l by lia. f_equal. lia. }
  rewrite Heq. split; [done|]. split; [by rewrite Hl|].
  rewrite Hl0. by rewrite Z.mul_0_l, Z.add_0_l, !Z.mod_0_l by lia.
Qed.

Lemma select_repos_consecutive_blocks_witness :
  ∃ this next,
    select_repos (sample_config 2 ["a"; "b"; "c"; "d"; "e"]) 6 = Ok this ∧
    select_repos (sample_config 2 ["a"; "b"; "c"; "d"; "e"]) 7 = Ok next ∧
    last this = Some (repo_named "d") ∧ head next = Some (repo_named "e").
Proof.
  destruct (select_repos_consecutive_blocks
              (sample_config 2 ["a"; "b"; "c"; "d"; "e"]) 6 2)
    as (this & next & first & p & Hthis & Hnext & _ & _ & _ & Hlast & Hhead & _);
    [done|reflexivity|reflexivity|reflexivity|lia|lia|].
  change (6 + 1) with 7 in Hnext.
  exists this, next. split; [exact Hthis|]. split; [exact Hnext|].
  assert (H6 : select_repos (sample_config 2 ["a"; "b"; "c"; "d"; "e"]) 6
               = Ok [repo_named "c"; repo_named "d"]) by (vm_compute; reflexivity).
  assert (H7 : select_repos (sample_config 2 ["a"; "b"; "c"; "d"; "e"]) 7
               = Ok [repo_named "e"; repo_named "a"]) by (vm_compute; reflexivity).
  rewrite H6 in Hthis. rewrite H7 in Hnext.
  injection Hthis as <-. injection Hnext as <-. done.
Defined.

(** ** The plain output line *)

Lemma bind_Raise {A B} (f : A → res B) (e : exn) : (Raise e ≫= f) = Raise e.
Proof. reflexivity. Qed.

Lemma mapM_res_cons {A B} (f : A → res B) (x : A) (l : list A) :
  mapM f (x :: l) = (y ← f x; k ← mapM f l; Ok (y :: k)).
Proof. reflexivity. Qed.

Lemma get_name_Some (repo : record) (v : value) :
  repo !! "name" = Some v → get_name repo = Ok v.
Proof. intros H. unfold get_name. by rewrite H. Qed.

Lemma get_name_None (repo : record) :
  repo !! "name" = None → get_name repo = Raise KeyError.
Proof. intros H. unfold get_name. by rewrite H. Qed.

Lemma mapM_get_name_missing (selected : list record) :
  (∃ repo, repo ∈ selected ∧ repo !! "name" = None) →
  mapM get_name selected = Raise KeyError.
Proof.
  induction selected as [|r l IH]; intros (repo & Hin & Hnone).
  - by apply elem_of_nil in Hin.
  - rewrite mapM_res_cons.
    destruct (r !! "name") as [v|] eqn:Hr;
      [|by rewrite (get_name_None r Hr), bind_Raise].
    apply elem_of_cons in Hin as [->|Hin]; [congruence|].
    rewrite (get_name_Some r v Hr), bind_Ok, IH by eauto. by rewrite bind_Raise.
Qed.

Lemma mapM_get_name_present (selected : list record) :
  (∀ repo, repo ∈ selected → is_Some (repo !! "name")) →
  ∃ names, mapM get_name selected = Ok names ∧
           Forall2 (λ repo v, repo !! "name" = Some v) selected names.
Proof.
  induction selected as [|r l IH]; intros Hall.
  - exists []. split; [done|constructor].
  - destruct (Hall r) as [v Hv]; [by left|].
    destruct IH as (names & Hnames & HF).
    { intros repo Hin. apply Hall. by right. }
    exists (v :: names). split; [|by constructor].
    by rewrite mapM_res_cons, (get_name_Some r v Hv), bind_Ok, Hnames, bind_Ok.
Qed.

Lemma name_of_lookup (repo : record) (v : value) :
  repo !! "name" = Some v →
  name_of repo = match v with VStr n => Some n | _ => None end.
Proof. intros Hv. unfold name_of. by rewrite Hv. Qed.

Lemma mapM_join_item_spec (selected : list record) (names : list value) :
  Forall2 (λ repo v, repo !! "name" = Some v) selected names →
  mapM join_item names
  = if bool_decide (Forall (λ repo, is_Some (name_of repo)) selected)
    then Ok (omap name_of selected) else Raise TypeError.
Proof.
  induction 1 as [|r v l names Hv HF IH]; [done|].
  rewrite mapM_res_cons, IH. pose proof (name_of_lookup r v Hv) as Hn.
  destruct v as [| | |n]; cbn [join_item].
  1-3: rewrite bind_Raise, bool_decide_eq_false_2; [done|];
       intros [[? Hs] _]%Forall_cons; congruence.
  rewrite bind_Ok. case_bool_decide as Hl.
  - rewrite bind_Ok, bool_decide_eq_true_2.
    + cbn [omap list_omap]. by rewrite Hn.
    + constructor; [by rewrite Hn|done].
  - rewrite bind_Raise, bool_decide_eq_false_2; [done|].
    by intros [_ ?]%Forall_cons.
Qed.

Lemma length_omap_name_of (selected : list record) :
  Forall (λ repo, is_Some (name_of repo)) selected →
  length (omap name_of selected) = length selected.
Proof.
  induction 1 as [|r l [n Hn] _ IH]; [done|]. cbn. rewrite Hn. cbn. by rewrite IH.
Qed.

Lemma names_line_strings (selected : list record) :
  (∀ repo, repo ∈ selected → is_Some (name_of repo)) →
  names_line selected = Ok (String.concat " " (omap name_of selected)) ∧
  length (omap name_of selected) = length selected.
Proof.
  intros Hstr. unfold names_line.
  destruct (mapM_get_name_present selected) as (names & -> & HF).
  { intros repo Hin. destruct (Hstr repo Hin) as [n Hn].
    unfold name_of in Hn. destruct (repo !! "name"); [by eexists|done]. }
  rewrite bind_Ok, (mapM_join_item_spec selected names HF).
  rewrite bool_decide_eq_true_2 by (by apply Forall_forall).
  split; [done|]. apply length_omap_name_of. by apply Forall_forall.
Qed.

(** X5.  The plain output line of [main].  If a selected record has no
    [name] key, building the line raises [KeyError], also when another
    record has a name that is not a string.  If every record has a name but
    one is not a string, [str.join] raises [TypeError].  Otherwise the line
    is the names, one per record, joined by single spaces. *)
Theorem names_line_spec (selected : list record) :
  ((∃ repo, repo ∈ selected ∧ repo !! "name" = None) →
     names_line selected = Raise KeyError) ∧
  ((∀ repo, repo ∈ selected → is_Some (repo !! "name")) →
   (∃ repo, repo ∈ selected ∧ name_of repo = None) →
     names_line selected = Raise TypeError) ∧
  ((∀ repo, repo ∈ selected → is_Some (name_of repo)) →
     names_line selected = Ok (String.concat " " (omap name_of selected)) ∧
     length (omap name_of selected) = length selected).
Proof.
  split; [|split].
  - intros Hmiss. unfold names_line. by rewrite mapM_get_name_missing.
  - intros Hall (repo & Hin & Hbad). unfold names_line.
    destruct (mapM_get_name_present selected Hall) as (names & -> & HF).
    rewrite bind_Ok, (mapM_join_item_spec selected names HF).
    rewrite bool_decide_eq_false_2; [done|].
    intros Hstr. rewrite Forall_forall in Hstr.
    destruct (Hstr repo Hin) as [n Hn]. congruence.
  - apply names_line_strings.
Qed.

Lemma names_line_spec_witness :
  names_line [repo_named "a"; {[ "branch" := VStr "main" ]}; {[ "name" := VInt 7 ]}]
  = Raise KeyError ∧
  names_line [alpha_repo; repo_named "beta"] = Ok "alpha beta".
Proof.
  split.
  - apply (proj1 (names_line_spec _)).
    exists {[ "branch" := VStr "main" ]}. split; [|reflexivity].
    apply elem_of_cons. right. apply elem_of_cons. by left.
  - refine (proj1 (proj2 (proj2 (names_line_spec [alpha_repo; repo_named "beta"])) _)).
    intros repo Hin.
    apply elem_of_cons in Hin as [->|Hin]; [by eexists|].
    apply elem_of_cons in Hin as [->|Hin]; [by eexists|].
    by apply elem_of_nil in Hin.
Defined.

(** ** Runs of [main] that pass validation *)

Lemma debug_day_name (h : Z) :
  0 ≤ h ≤ 167 → ∃ day, py_getitem day_names (h `div` 24) = Ok day.
Proof.
  intros Hh.
  destruct (py_getitem_nonneg day_names (h `div` 24)) as (day & Hday & _).
  - cbn [day_names length].
    split; [apply Z.div_pos; lia|apply Z.div_lt_upper_bound; lia].
  - by exists day.
Qed.

Lemma main_with_validated select e a c :
  path_exists e (config_path_of e a) = true →
  load_config e (config_path_of e a) = Ok c →
  0 ≤ resolved_hour e a ≤ 167 →
  ∃ err1,
    (arg_debug a = false → err1 = []) ∧
    main_with select e a =
      match select c (resolved_hour e a) with
      | Raise ex => {| stdout := []; stderr := err1; term := Uncaught ex |}
      | Ok selected =>
          let err2 :=
            if arg_debug a then
              err1 ++ ["Selected " +:+ pretty (Z.of_nat (length selected))
                       +:+ " repos"]
            else err1 in
          if arg_json a then
            {| stdout := [json_dumps e selected]; stderr := err2; term := Returned |}
          else
            match names_line selected with
            | Raise ex => {| stdout := []; stderr := err2; term := Uncaught ex |}
            | Ok line => {| stdout := [line]; stderr := err2; term := Returned |}
            end
      end.
Proof.
  intros Hex Hload Hh. unfold main_with. rewrite Hex, Hload. cbn [negb].
  change (match arg_hour a with
          | Some h => h
          | None => get_hour_of_week e None
          end) with (resolved_hour e a).
  destruct (Z.ltb_spec (resolved_hour e a) 0); [lia|].
  destruct (Z.ltb_spec 167 (resolved_hour e a)); [lia|]. cbn [orb].
  destruct (arg_debug a).
  - destruct (debug_day_name _ Hh) as (day & ->). rewrite bind_Ok.
    eexists. split; [|reflexivity]. intros [=].
  - exists []. split; [done|reflexivity].
Qed.

(** X6.  Once the configuration is loaded and the hour is in [0, 167], a
    run with [--json] ends as [select_repos] does.  When [select_repos]
    returns, which it does with [repos_per_hour] an integer (1 when the key
    is absent), the run prints [json.dumps] of the result as one line and
    exits with status 0, also for records without a [name].  When it raises,
    nothing is printed and the run ends with that exception uncaught,
    status 1. *)
Theorem main_json_success (e : env) (a : args) (c : config) :
  path_exists e (config_path_of e a) = true →
  load_config e (config_path_of e a) = Ok c →
  0 ≤ resolved_hour e a ≤ 167 →
  arg_json a = true →
  match select_repos c (resolved_hour e a) with
  | Ok selected =>
      stdout (main e a) = [json_dumps e selected] ∧
      term (main e a) = Returned ∧
      exit_status (term (main e a)) = 0
  | Raise ex =>
      stdout (main e a) = [] ∧
      term (main e a) = Uncaught ex ∧
      exit_status (term (main e a)) = 1
  end ∧
  (∀ n, get_repos_per_hour (get_settings c) = PyInt n →
        ∃ selected, select_repos c (resolved_hour e a) = Ok selected).
Proof.
  intros Hex Hload Hh Hjson.
  split; [|intros n Hn; by apply (select_repos_returns c _ n)].
  destruct (main_with_validated select_repos e a c Hex Hload Hh) as (err1 & _ & Hmain).
  unfold main. rewrite Hmain.
  destruct (select_repos c (resolved_hour e a)) as [selected|ex]; [|done].
  by rewrite Hjson.
Qed.

Lemma main_json_success_witness :
  stdout (main (names_env (Ok alpha_config))
               {| arg_hour := Some 25; arg_config := None;
                  arg_json := true; arg_debug := true |})
  = ["[beta]"] ∧
  term (main (names_env (Ok null_per_hour_config))
             {| arg_hour := Some 25; arg_config := None;
                arg_json := true; arg_debug := true |})
  = Uncaught TypeError.
Proof.
  split.
  - destruct (main_json_success (names_env (Ok alpha_config))
                {| arg_hour := Some 25; arg_config := None;
                   arg_json := true; arg_debug := true |} alpha_config)
      as [Hrun _]; [reflexivity|reflexivity|cbn; lia|reflexivity|].
    assert (Hsel : select_repos alpha_config 25 = Ok [repo_named "beta"])
      by (vm_compute; reflexivity).
    change (resolved_hour _ _) with 25 in Hrun. rewrite Hsel in Hrun.
    destruct Hrun as (-> & _). reflexivity.
  - destruct (main_json_success (names_env (Ok null_per_hour_config))
                {| arg_hour := Some 25; arg_config := None;
                   arg_json := true; arg_debug := true |} null_per_hour_config)
      as [Hrun _]; [reflexivity|reflexivity|cbn; lia|reflexivity|].
    assert (Hsel : select_repos null_per_hour_config 25 = Raise TypeError)
      by (vm_compute; reflexivity).
    change (resolved_hour _ _) with 25 in Hrun. rewrite Hsel in Hrun.
    by destruct Hrun as (_ & -> & _).
Defined.

(** X7.  An empty selection is not an error: when [active_repos] is empty or
    the hour is outside the active window, a validated run returns with
    status 0 and prints one line, the empty line in plain mode and
    [json.dumps([])] with [--json]. *)
Theorem main_empty_selection (e : env) (a : args) (c : config) :
  path_exists e (config_path_of e a) = true →
  load_config e (config_path_of e a) = Ok c →
  0 ≤ resolved_hour e a ≤ 167 →
  get_active_repos c = [] ∨
    is_active_time (resolved_hour e a) (get_settings c) = false →
  stdout (main e a) = [if arg_json a then json_dumps e [] else ""] ∧
  term (main e a) = Returned ∧
  exit_status (term (main e a)) = 0.
Proof.
  intros Hex Hload Hh Hnone.
  destruct (main_with_validated select_repos e a c Hex Hload Hh) as (err1 & _ & Hmain).
  assert (Hsel : select_repos c (resolved_hour e a) = Ok []).
  { destruct Hnone; [by apply select_repos_no_repos|by apply select_repos_inactive]. }
  unfold main. rewrite Hmain, Hsel. cbn. by destruct (arg_json a).
Qed.

Lemma main_empty_selection_witness :
  main (sample_env true
          (Ok {| cfg_settings := Some office_settings;
                 cfg_active_repos := Some [alpha_repo];
                 cfg_overrides := None |}))
       (sample_args (Some 33))
  = {| stdout := [""]; stderr := []; term := Returned |}.
Proof.
  pose proof (main_empty_selection
    (sample_env true
       (Ok {| cfg_settings := Some office_settings;
              cfg_active_repos := Some [alpha_repo];
              cfg_overrides := None |}))
    (sample_args (Some 33)) _ eq_refl eq_refl) as H.
  destruct H as (Hout & Hterm & _); [cbn; lia|right; reflexivity|].
  reflexivity.
Defined.

Lemma main_with_hour_invalid select e a c :
  path_exists e (config_path_of e a) = true →
  load_config e (config_path_of e a) = Ok c →
  ¬ (0 ≤ resolved_hour e a ≤ 167) →
  main_with select e a
  = {| stdout := []; stderr := [hour_range_message (resolved_hour e a)];
       term := SysExit 1 |}.
Proof.
  intros Hex Hload Hh. unfold main_with. rewrite Hex, Hload. cbn [negb].
  change (match arg_hour a with
          | Some h => h
          | None => get_hour_of_week e None
          end) with (resolved_hour e a).
  destruct (Z.ltb_spec (resolved_hour e a) 0);
    destruct (Z.ltb_spec 167 (resolved_hour e a)); try done. lia.
Qed.

(** X4.  [--debug] only adds lines to the error stream: whatever the
    selection function does, the lines on the output stream and the way the
    run ends are the same with and without it, and the error stream without
    it is a subsequence of the error stream with it. *)
Theorem main_debug_only_stderr (select : config → Z → res (list record))
    (e : env) (a : args) :
  stdout (main_with select e (with_debug true a))
  = stdout (main_with select e (with_debug false a)) ∧
  term (main_with select e (with_debug true a))
  = term (main_with select e (with_debug false a)) ∧
  sublist (stderr (main_with select e (with_debug false a)))
          (stderr (main_with select e (with_debug true a))).
Proof.
  change (config_path_of e (with_debug true a)) with (config_path_of e a).
  destruct (path_exists e (config_path_of e a)) eqn:Hex.
  2:{ rewrite !main_with_missing_config by done. done. }
  destruct (load_config e (config_path_of e a)) as [c|ex] eqn:Hload.
  2:{ rewrite !(main_with_unreadable_config _ _ _ ex) by done. done. }
  destruct (decide (0 ≤ resolved_hour e a ≤ 167)) as [Hh|Hh].
  - destruct (main_with_validated select e (with_debug true a) c Hex Hload Hh)
      as (err1 & _ & ->).
    destruct (main_with_validated select e (with_debug false a) c Hex Hload Hh)
      as (err0 & Herr0 & ->).
    rewrite (Herr0 eq_refl).
    change (resolved_hour e (with_debug true a)) with (resolved_hour e a).
    change (resolved_hour e (with_debug false a)) with (resolved_hour e a).
    cbn [with_debug arg_debug arg_json].
    destruct (select c (resolved_hour e a)) as [selected|ex]; cbn zeta.
    + destruct (arg_json a); [cbn; auto using sublist_nil_l|].
      destruct (names_line selected); cbn; auto using sublist_nil_l.
    + cbn. auto using sublist_nil_l.
  - rewrite !(main_with_hour_invalid _ _ _ c) by done. done.
Qed.

(** X3.  Without [--hour] the hour is [weekday * 24 + hour] of the UTC
    clock: the run is the run with that value passed as [--hour]; the value
    is within [0, 167], so once the configuration is loaded the run never
    ends by [sys.exit]. *)
Theorem main_clock_hour (select : config → Z → res (list record))
    (e : env) (a : args) :
  valid_datetime (utc_now e) →
  arg_hour a = None →
  resolved_hour e a = dt_weekday (utc_now e) * 24 + dt_hour (utc_now e) ∧
  0 ≤ resolved_hour e a ≤ 167 ∧
  main_with select e a
  = main_with select e (with_hour (Some (resolved_hour e a)) a) ∧
  (∀ c code,
     path_exists e (config_path_of e a) = true →
     load_config e (config_path_of e a) = Ok c →
     term (main_with select e a) ≠ SysExit code).
Proof.
  intros Hclock Hnone.
  destruct (get_hour_of_week_parts e None Hclock) as (Hrange & _).
  assert (Hres : resolved_hour e a = get_hour_of_week e None).
  { unfold resolved_hour. by rewrite Hnone. }
  split; [by rewrite Hres|]. split; [by rewrite Hres|]. split.
  - unfold main_with, with_hour, config_path_of, resolved_hour.
    cbn. by rewrite Hnone.
  - intros c code Hex Hload.
    destruct (main_with_validated select e a c Hex Hload) as (err1 & _ & ->).
    { by rewrite Hres. }
    destruct (select c (resolved_hour e a)) as [selected|ex]; [|done].
    cbn zeta. destruct (arg_json a); [done|].
    by destruct (names_line selected).
Qed.

Lemma main_clock_hour_witness :
  resolved_hour (sample_env true (Ok alpha_config)) (sample_args None) = 0 ∧
  main (sample_env true (Ok alpha_config)) (sample_args None)
  = main (sample_env true (Ok alpha_config)) (sample_args (Some 0)).
Proof.
  destruct (main_clock_hour select_repos (sample_env true (Ok alpha_config))
              (sample_args None)) as (Hres & _ & Hmain & _).
  - split; cbn; lia.
  - reflexivity.
  - split; [exact Hres|exact Hmain].
Defined.

(** ** Plain output for configurations with string names *)

Lemma name_of_apply_overrides (overrides : gmap string record) (repo : record) :
  is_Some (name_of repo) →
  (∀ k o v, overrides !! k = Some o → o !! "name" = Some v → ∃ n, v = VStr n) →
  is_Some (name_of (apply_overrides overrides repo)).
Proof.
  intros [n Hn] Hov. unfold apply_overrides.
  unfold name_of in Hn. destruct (repo !! "name") as [[| | |n']|] eqn:Hr; try done.
  destruct (overrides !! n') as [o|] eqn:Ho.
  - unfold name_of. destruct (o !! "name") as [v|] eqn:Hv.
    + destruct (Hov _ _ _ Ho Hv) as [m ->].
      rewrite (lookup_union_Some_l o repo "name" (VStr m) Hv). by eexists.
    + rewrite (lookup_union_r o repo "name" Hv), Hr. by eexists.
  - unfold name_of. rewrite Hr. by eexists.
Qed.

(** X8.  When [repos_per_hour] is an integer (1 when the key is absent),
    every repo of [active_repos] has a string name and no override replaces
    a name by something that is not a string, a validated run in plain mode
    returns with status 0 and prints the names of the selected records, one
    per record, separated by single spaces. *)
Theorem main_plain_names (e : env) (a : args) (c : config) (n : Z) :
  path_exists e (config_path_of e a) = true →
  load_config e (config_path_of e a) = Ok c →
  0 ≤ resolved_hour e a ≤ 167 →
  arg_json a = false →
  get_repos_per_hour (get_settings c) = PyInt n →
  (∀ repo, repo ∈ get_active_repos c → is_Some (name_of repo)) →
  (∀ k o v, get_overrides c !! k = Some o → o !! "name" = Some v →
            ∃ n, v = VStr n) →
  ∃ selected,
    select_repos c (resolved_hour e a) = Ok selected ∧
    length (omap name_of selected) = length selected ∧
    stdout (main e a) = [String.concat " " (omap name_of selected)] ∧
    term (main e a) = Returned.
Proof.
  intros Hex Hload Hh Hjson Hn Hnames Hov.
  destruct (main_with_validated select_repos e a c Hex Hload Hh) as (err1 & _ & Hmain).
  destruct (select_repos_unfold c (resolved_hour e a)) as (ahi & _ & Hsel).
  rewrite Hn in Hsel.
  assert (Hsel' : ∃ selected, select_repos c (resolved_hour e a) = Ok selected ∧
            selected = if bool_decide (get_active_repos c = []) then []
                       else if is_active_time (resolved_hour e a) (get_settings c)
                       then rotation (get_active_repos c) (get_overrides c)
                              ((ahi * n) `mod` Z.of_nat (length (get_active_repos c)))
                              (py_range n)
                       else []).
  { rewrite Hsel. repeat case_match; eexists; (split; [reflexivity|done]). }
  clear Hsel. destruct Hsel' as (selected & Hsel & Hdef).
  assert (Hall : ∀ repo, repo ∈ selected → is_Some (name_of repo)).
  { subst selected. intros repo Hin. case_bool_decide as Hne.
    { by apply elem_of_nil in Hin. }
    destruct (is_active_time (resolved_hour e a) (get_settings c));
      [|by apply elem_of_nil in Hin].
    rewrite rotation_fmap in Hin.
    apply list_elem_of_fmap in Hin as (base & -> & Hbase).
    apply name_of_apply_overrides; [|done].
    by eapply Hnames, rotation_empty_subset. }
  destruct (names_line_strings selected Hall) as [Hline Hlen].
  unfold main. rewrite Hmain, Hsel, Hjson. cbn zeta. rewrite Hline. cbn.
  exists selected. done.
Qed.

Lemma main_plain_names_witness :
  stdout (main (sample_env true (Ok alpha_config)) (sample_args (Some 1)))
  = ["beta"].
Proof.
  destruct (main_plain_names (sample_env true (Ok alpha_config))
              (sample_args (Some 1)) alpha_config 1)
    as (selected & Hsel & _ & -> & _);
    [reflexivity|reflexivity|cbn; lia|reflexivity|reflexivity| | |].
  - intros repo Hin. cbn in Hin.
    apply elem_of_cons in Hin as [->|Hin]; [by eexists|].
    apply elem_of_cons in Hin as [->|Hin]; [by eexists|].
    by apply elem_of_nil in Hin.
  - intros k o v Ho Hv. cbn in Ho.
    apply lookup_singleton_Some in Ho as [_ <-].
    by rewrite lookup_singleton_ne in Hv.
  - assert (Hone : select_repos alpha_config
                     (resolved_hour (sample_env true (Ok alpha_config))
                        (sample_args (Some 1)))
                   = Ok [repo_named "beta"]) by (vm_compute; reflexivity).
    rewrite Hone in Hsel. injection Hsel as <-. reflexivity.
Defined.

(** ** Independent copies *)

(** X9.  On the store, with [repos_per_hour] an integer (1 when the key is
    absent), [select_repos] returns; and whenever it returns, every record of
    its result is a new object: none is an object of the store it was called
    in, so none is a dict of the configuration, and no two are the same
    object, also when the rotation wraps and one repo is selected twice.
    Every object that existed before the call holds afterwards what it held
    before. *)
Theorem select_repos_st_independent_copies (c : config_refs) (hour_of_week : Z)
    (σ : store) :
  config_in_store σ c →
  (∀ n, get_repos_per_hour (default empty_settings (ref_settings c)) = PyInt n →
        ∃ out σ', select_repos_st c hour_of_week σ = Ok (out, σ')) ∧
  ∀ out σ', select_repos_st c hour_of_week σ = Ok (out, σ') →
    NoDup out ∧
    (∀ l, l ∈ out → (l ∉ dom σ) ∧ (l ∈ dom σ')) ∧
    (∀ l d, σ !! l = Some d → σ' !! l = Some d) ∧
    select_repos (read_config σ c) hour_of_week = Ok (contents σ' out).
Proof.
  intros Hwf.
  pose proof (select_repos_st_refines c hour_of_week σ σ Hwf (reflexivity σ)) as Href.
  split.
  - intros n Hn.
    destruct (select_repos_returns (read_config σ c) hour_of_week n Hn)
      as (selected & Hsel).
    rewrite Hsel in Href. destruct Href as (out & σ' & Hrun & _). by exists out, σ'.
  - intros out σ' Hrun.
    destruct (select_repos (read_config σ c) hour_of_week) as [selected|e];
      [|congruence].
    destruct Href as (out' & σ'' & Hrun' & Hsub & Hnew & Hnd & Hcont).
    rewrite Hrun in Hrun'. injection Hrun' as <- <-.
    split; [done|]. split; [done|]. split; [|by rewrite Hcont].
    intros l d Hl. by eapply lookup_weaken.
Qed.

Lemma select_repos_st_independent_copies_witness :
  ∃ out σ',
    select_repos_st sample_config_refs 0 sample_store = Ok (out, σ') ∧
    NoDup out ∧ length out = 3%nat ∧
    σ' !! 1%positive = Some alpha_repo.
Proof.
  destruct (select_repos_st_independent_copies sample_config_refs 0 sample_store)
    as (Hret & Hall).
  - split.
    + intros l Hl. cbn in Hl.
      apply elem_of_cons in Hl as [->|Hl]; [compute_done|].
      apply elem_of_cons in Hl as [->|Hl]; [compute_done|].
      by apply elem_of_nil in Hl.
    + intros k l Hl. cbn in Hl.
      apply lookup_singleton_Some in Hl as [_ <-]. compute_done.
  - destruct (Hret 3 eq_refl) as (out & σ' & Hrun).
    destruct (Hall out σ' Hrun) as (Hnd & _ & Hkeep & Hsel).
    exists out, σ'. split; [exact Hrun|]. split; [exact Hnd|]. split.
    + assert (Hthree : ∃ r1 r2 r3,
                select_repos (read_config sample_store sample_config_refs) 0
                = Ok [r1; r2; r3]) by (vm_compute; eauto).
      destruct Hthree as (r1 & r2 & r3 & H3). rewrite H3 in Hsel.
      injection Hsel as Hsel. apply (f_equal length) in Hsel.
      by rewrite length_contents in Hsel.
    + apply Hkeep. reflexivity.
Defined.

(** ** A null [repos_per_hour] *)

(** X14.  The default of [repos_per_hour] is for an absent key only.  With
    the key present and null, [select_repos] raises [TypeError] at every
    active hour when [active_repos] is not empty, and still returns the empty
    list when [active_repos] is empty or the hour is inactive; a validated
    run of [main] then ends with the [TypeError] uncaught, status 1, and
    prints nothing on the output stream. *)
Theorem select_repos_null_repos_per_hour (c : config) (hour_of_week : Z) :
  repos_per_hour (get_settings c) = Some PyNone →
  (get_active_repos c ≠ [] →
   is_active_time hour_of_week (get_settings c) = true →
   select_repos c hour_of_week = Raise TypeError ∧
   ∀ e a, path_exists e (config_path_of e a) = true →
          load_config e (config_path_of e a) = Ok c →
          resolved_hour e a = hour_of_week →
          0 ≤ hour_of_week ≤ 167 →
          stdout (main e a) = [] ∧
          term (main e a) = Uncaught TypeError ∧
          exit_status (term (main e a)) = 1) ∧
  (get_active_repos c = [] ∨
   is_active_time hour_of_week (get_settings c) = false →
   select_repos c hour_of_week = Ok []).
Proof.
  intros Hnull.
  assert (Hn : get_repos_per_hour (get_settings c) = PyNone).
  { unfold get_repos_per_hour. by rewrite Hnull. }
  split.
  - intros Hne Hact.
    pose proof (select_repos_null_per_hour c hour_of_week Hne Hact Hn) as Hsel.
    split; [done|]. intros e a Hex Hload Hres Hh.
    destruct (main_with_validated select_repos e a c Hex Hload) as (err1 & _ & Hmain).
    { by rewrite Hres. }
    unfold main. rewrite Hmain, Hres, Hsel. done.
  - intros [Hnil|Hact].
    + by apply select_repos_no_repos.
    + by apply select_repos_inactive.
Qed.

Lemma select_repos_null_repos_per_hour_witness :
  select_repos null_per_hour_config 10 = Raise TypeError ∧
  term (main (names_env (Ok null_per_hour_config)) (sample_args (Some 10)))
  = Uncaught TypeError.
Proof.
  destruct (select_repos_null_repos_per_hour null_per_hour_config 10 eq_refl)
    as [Hraise _].
  destruct Hraise as [Hsel Hmain]; [done|reflexivity|].
  split; [exact Hsel|].
  destruct (Hmain (names_env (Ok null_per_hour_config)) (sample_args (Some 10)))
    as (_ & Hterm & _); [reflexivity|reflexivity|reflexivity|lia|].
  exact Hterm.
Defined.
